(** * DevOps AI agents: routing, gating and policy core

    A shallow embedding of the Python sources

      - [src/agents/infra_agent.py]     (policy table, cost estimate, [plan])
      - [src/agents/incident_agent.py]  (cluster access, [analyze])
      - [src/agents/pipeline_agent.py]  (quick-win detector, [optimize])
      - [src/agents/orchestrator.py]    (intent classification, [route])

    Python [str] values are modelled as [string] (sequences of 8-bit
    characters); [str.lower] and [str.strip] are modelled on ASCII text.
    Python [int] values are [Z].  Insertion-ordered dictionaries whose
    order is observable ([POLICIES], [cost_map], the job table, the
    handler table) are association lists.  Everything the agents reach
    over the network (the chat-completion client, the JSON and YAML
    parsers, the Kubernetes API) is an oracle of a [World] record, and the
    calls that are issued are recorded in a trace kept in the state. *)

From Stdlib Require Import String Ascii List ZArith Bool Arith Lia DecimalString.
Import ListNotations.

Local Open Scope string_scope.
Local Open Scope bool_scope.
Local Set Warnings "-register-all".

(* ================================================================== *)
(** ** Python strings *)
(* ================================================================== *)

Module PyStr.

(** [p in t] for two [str] values. *)
Fixpoint contains (p t : string) : bool :=
  String.prefix p t ||
  match t with
  | EmptyString => false
  | String _ t' => contains p t'
  end.

(** [t.endswith(p)], used to talk about the end of an artifact. *)
Fixpoint ends_with (p t : string) : bool :=
  String.eqb p t ||
  match t with
  | EmptyString => false
  | String _ t' => ends_with p t'
  end.

Definition lower_ascii (c : ascii) : ascii :=
  let n := nat_of_ascii c in
  if (65 <=? n)%nat && (n <=? 90)%nat then ascii_of_nat (n + 32) else c.

(** [t.lower()] on ASCII text. *)
Fixpoint lower (t : string) : string :=
  match t with
  | EmptyString => EmptyString
  | String c t' => String (lower_ascii c) (lower t')
  end.

(** [c.isspace()] on ASCII: tab, LF, VT, FF, CR, FS, GS, RS, US, space. *)
Definition is_space (c : ascii) : bool :=
  let n := nat_of_ascii c in
  ((9 <=? n)%nat && (n <=? 13)%nat) ||
  ((28 <=? n)%nat && (n <=? 32)%nat).

Fixpoint lstrip (t : string) : string :=
  match t with
  | EmptyString => EmptyString
  | String c t' => if is_space c then lstrip t' else t
  end.

Fixpoint rstrip (t : string) : string :=
  match t with
  | EmptyString => EmptyString
  | String c t' =>
      match rstrip t' with
      | EmptyString => if is_space c then EmptyString else String c EmptyString
      | r => String c r
      end
  end.

(** [t.strip()] *)
Definition strip (t : string) : string := rstrip (lstrip t).

(** [x in xs] for a list of strings. *)
Definition mem (x : string) (xs : list string) : bool :=
  existsb (String.eqb x) xs.

(** [strip_prefix a p] is [Some v] when [p = a ++ v]. *)
Fixpoint strip_prefix (a p : string) : option string :=
  match a with
  | EmptyString => Some p
  | String c a' =>
      match p with
      | EmptyString => None
      | String d p' => if ascii_dec d c then strip_prefix a' p' else None
      end
  end.

(** All the ways of cutting [p] in two. *)
Fixpoint splits (p : string) : list (string * string) :=
  (EmptyString, p) ::
  match p with
  | EmptyString => []
  | String c p' => map (fun uv => (String c (fst uv), snd uv)) (splits p')
  end.

Definition nonempty (s : string) : bool :=
  match s with EmptyString => false | _ => true end.

(** The proper beginnings [u] of [p] whose remainder starts [s]: when a
    text ends with such a [u], appending [s] completes an occurrence of
    [p] across the junction. *)
Definition overlap (p s : string) : list string :=
  map fst
    (filter (fun uv => nonempty (fst uv) && nonempty (snd uv)
                       && String.prefix (snd uv) s)
       (splits p)).

End PyStr.

(* ================================================================== *)
(** ** JSON values, as [json.loads] returns them *)
(* ================================================================== *)

(** Numbers are kept as integers: the code below only tests them for
    truthiness and never iterates them, which floats share.  The keys of
    an object are distinct, as in the dictionary [json.loads] builds. *)
Inductive json : Type :=
| JNull
| JBool (b : bool)
| JNum (n : Z)
| JStr (s : string)
| JArr (items : list json)
| JObj (fields : list (string * json)).

(** Exceptions that the modelled code can raise. *)
Inductive exn : Type :=
| APIError                    (* the chat-completion call raised *)
| JSONDecodeError             (* json.loads raised *)
| KeyError (key : string)
| AttributeError
| TypeError
| ApiException                (* a Kubernetes API call raised *)
| ParseError                  (* _parse_workflow raised *)
| ClassificationUnavailable.  (* retry budget exhausted *)

Inductive result (A : Type) : Type :=
| Ok (a : A)
| Raise (e : exn).
Arguments Ok {A} a.
Arguments Raise {A} e.

Module Json.

Fixpoint assoc {A : Type} (k : string) (l : list (string * A)) : option A :=
  match l with
  | [] => None
  | (k', v) :: l' => if String.eqb k k' then Some v else assoc k l'
  end.

(** [bool(v)] *)
Definition truthy (v : json) : bool :=
  match v with
  | JNull => false
  | JBool b => b
  | JNum n => negb (Z.eqb n 0)
  | JStr s => negb (String.eqb s "")
  | JArr l => match l with [] => false | _ => true end
  | JObj l => match l with [] => false | _ => true end
  end.

(** [d.get(k)]: [AttributeError] when [d] is a list, [None] is [JNull];
    strings, numbers, booleans and [None] have no [get] either. *)
Definition get (d : json) (k : string) : result json :=
  match d with
  | JObj l => Ok (match assoc k l with Some v => v | None => JNull end)
  | _ => Raise AttributeError
  end.

(** [d.get(k, default)] *)
Definition get_default (d : json) (k : string) (default : json) : result json :=
  match d with
  | JObj l => Ok (match assoc k l with Some v => v | None => default end)
  | _ => Raise AttributeError
  end.

Fixpoint chars (s : string) : list json :=
  match s with
  | EmptyString => []
  | String c s' => JStr (String c EmptyString) :: chars s'
  end.

(** [iter(v)]: lists yield their items, strings their characters,
    dictionaries their keys; the rest raise [TypeError]. *)
Definition iter (v : json) : result (list json) :=
  match v with
  | JArr l => Ok l
  | JStr s => Ok (chars s)
  | JObj l => Ok (map (fun kv => JStr (fst kv)) l)
  | _ => Raise TypeError
  end.

(** [len(v)] *)
Definition len (v : json) : result nat :=
  match v with
  | JArr l => Ok (List.length l)
  | JStr s => Ok (String.length s)
  | JObj l => Ok (List.length l)
  | _ => Raise TypeError
  end.

(** [v == s] for a string literal [s]. *)
Definition eq_str (v : json) (s : string) : bool :=
  match v with
  | JStr s' => String.eqb s' s
  | _ => false
  end.

End Json.

(* ================================================================== *)
(** ** infra_agent.py: the policy table *)
(* ================================================================== *)

Record Policy : Type := {
  description : string;
  check : string -> bool
}.

(** [POLICIES], in declaration order. *)
Definition POLICIES : list (string * Policy) :=
  [ ("no_public_s3",
     {| description := "S3 buckets must not have public access";
        check := fun tf =>
          negb (PyStr.contains "public" (PyStr.lower tf))
          || PyStr.contains "block_public" (PyStr.lower tf) |});
    ("enforce_tagging",
     {| description := "All resources must have environment and owner tags";
        check := fun tf => PyStr.contains "tags" (PyStr.lower tf) |});
    ("instance_size_limit",
     {| description := "EC2 instances must not exceed xlarge in non-prod";
        check := fun tf =>
          negb (PyStr.contains "2xlarge" tf)
          || negb (PyStr.contains "4xlarge" tf) |});
    ("encryption_required",
     {| description := "Storage resources must have encryption enabled";
        check := fun tf =>
          PyStr.contains "encrypted" (PyStr.lower tf)
          || PyStr.contains "kms" (PyStr.lower tf)
          || negb (PyStr.contains "s3" (PyStr.lower tf)) |}) ].

Record Violation : Type := {
  policy : string;
  v_description : string;
  v_severity : string
}.

(** The loop of [_validate_policies], over an arbitrary table. *)
Fixpoint validate_policies_in (table : list (string * Policy))
    (terraform_code environment : string) : list Violation :=
  match table with
  | [] => []
  | (name, pol) :: rest =>
      if String.eqb name "instance_size_limit"
         && String.eqb environment "production"
      then validate_policies_in rest terraform_code environment
      else if negb (check pol terraform_code)
      then {| policy := name;
              v_description := description pol;
              v_severity := "high" |}
           :: validate_policies_in rest terraform_code environment
      else validate_policies_in rest terraform_code environment
  end.

(** [InfrastructureAgent._validate_policies] *)
Definition _validate_policies (terraform_code environment : string)
  : list Violation :=
  validate_policies_in POLICIES terraform_code environment.

(** [cost_map]; each entry keeps its price table in declaration order. *)
Definition cost_map : list (string * list (string * Z)) :=
  [ ("aws_instance",
     [("t3.micro", 8); ("t3.small", 15); ("t3.medium", 30);
      ("t3.large", 60); ("t3.xlarge", 120)]%Z);
    ("aws_eks_cluster", [("base", 73)]%Z);
    ("aws_rds_instance",
     [("db.t3.micro", 13); ("db.t3.small", 25); ("db.t3.medium", 50)]%Z);
    ("aws_s3_bucket", [("base", 2)]%Z);
    ("aws_elasticache", [("base", 25)]%Z) ].

(** [resource.replace("aws_", "")] for the keys of [cost_map], each of
    which carries the prefix exactly once. *)
Definition drop_aws (resource : string) : string :=
  if String.prefix "aws_" resource
  then String.substring 4 (String.length resource - 4) resource
  else resource.

Record CostEstimate : Type := {
  estimated_monthly_usd : Z;
  resources_detected : list string
}.

Fixpoint estimate_cost_in (table : list (string * list (string * Z)))
    (terraform_code : string) : Z * list string :=
  match table with
  | [] => (0%Z, [])
  | (resource, costs) :: rest =>
      let '(total, found) := estimate_cost_in rest terraform_code in
      if PyStr.contains (drop_aws resource) (PyStr.lower terraform_code)
      then
        let base_cost :=
          match Json.assoc "base" costs with
          | Some c => c
          | None => match costs with (_, c) :: _ => c | [] => 0%Z end
          end in
        ((base_cost + total)%Z, resource :: found)
      else (total, found)
  end.

(** [InfrastructureAgent._estimate_cost]; the sum of whole-dollar prices
    is exact, so rounding to two places leaves it unchanged. *)
Definition _estimate_cost (terraform_code : string) : CostEstimate :=
  let '(total, found) := estimate_cost_in cost_map terraform_code in
  {| estimated_monthly_usd := total; resources_detected := found |}.

(* ================================================================== *)
(** ** The outside world, the agents' state and the effect monad *)
(* ================================================================== *)

(** A pod as the Kubernetes client returns it ([container_statuses] is
    the empty list when the API leaves it unset). *)
Record ContainerStatus : Type := {
  restart_count : Z;
  cs_ready : bool
}.

Record Pod : Type := {
  metadata_name : string;
  status_phase : string;
  container_statuses : list ContainerStatus
}.

(** An entry of the list [_get_pod_status] returns: the placeholder
    [{"error": ...}] or the four-key summary of a pod. *)
Inductive PodStatus : Type :=
| PodError (error : string)
| PodInfo (name phase : string) (restarts : Z) (ready : bool).

(** What a chat-completion call is asked; the fixed system prompts and
    the serialisation of the context are left to the oracle. *)
Inductive request : Type :=
| ClassifyRequest (text : string)
| IncidentRequest (description severity : string)
    (pod_status unhealthy : list PodStatus) (pod_logs : list (string * string))
| PlanRequest (environment request_text : string)
| OptimizeRequest (repo workflow_content : string).

(** Calls that leave the process. *)
Inductive event : Type :=
| ChatCompletion (req : request)
| Sleep (seconds : Z)
| ListPods (namespace : string)
| ReadPodLog (pod namespace : string) (tail_lines : Z)
| DeletePod (pod namespace : string)
| PatchScale (deployment namespace : string) (replicas : Z).

(** The reply of [chat.completions.create]: it raises, or the first
    choice carries a content that may be [None]. *)
Inductive reply : Type :=
| ChatRaises
| ChatContent (content : option string).

(** The summary [_parse_workflow] builds for a job. *)
Record Job : Type := {
  steps : Z;
  runs_on : string;
  needs : json;
  has_cache : bool;
  has_matrix : bool;
  has_artifacts : bool;
  uses_actions : list string
}.

(** The value [_parse_workflow] returns: an error marker or the summary
    of the workflow, its jobs in document order. *)
Inductive WorkflowAnalysis : Type :=
| WorkflowError (error : string)
| Workflow (total_jobs : Z) (jobs : list (string * Job)) (triggers : list string).

(** Every oracle sees the calls issued so far, so its answers may change
    from one call to the next. *)
Record World : Type := {
  chat_completion : list event -> request -> reply;
  json_loads : string -> option json;
  parse_workflow : string -> result WorkflowAnalysis;
  load_incluster_config : list event -> bool;
  load_kube_config : list event -> bool;
  list_namespaced_pod : list event -> string -> option (list Pod);
  read_namespaced_pod_log :
    list event -> string -> string -> Z -> string + string;
  delete_namespaced_pod : list event -> string -> string -> bool;
  patch_namespaced_deployment_scale :
    list event -> string -> string -> Z -> bool
}.

(** The mutable state: the incident agent's [_k8s_initialized] flag and
    the calls issued so far, oldest first. *)
Record State : Type := {
  k8s_initialized : bool;
  trace : list event
}.

Definition M (A : Type) : Type := State -> result A * State.

Definition ret {A : Type} (a : A) : M A := fun st => (Ok a, st).

Definition raise {A : Type} (e : exn) : M A := fun st => (Raise e, st).

Definition bind {A B : Type} (m : M A) (k : A -> M B) : M B :=
  fun st =>
    match m st with
    | (Ok a, st') => k a st'
    | (Raise e, st') => (Raise e, st')
    end.

Notation "x <- m ;; k" := (bind m (fun x => k))
  (at level 61, m at next level, right associativity).
Notation "m ;;; k" := (bind m (fun _ => k))
  (at level 61, right associativity).

Definition lift {A : Type} (r : result A) : M A :=
  match r with
  | Ok a => ret a
  | Raise e => raise e
  end.

(** Issue a call: the oracle answers from the history, then the call is
    appended to it. *)
Definition call {A : Type} (ev : event) (answer : list event -> A) : M A :=
  fun st =>
    (Ok (answer (trace st)),
     {| k8s_initialized := k8s_initialized st;
        trace := trace st ++ [ev] |}).

(** The state-mutating calls: those that change the cluster. *)
Definition is_mutation (ev : event) : bool :=
  match ev with
  | DeletePod _ _ | PatchScale _ _ _ => true
  | _ => false
  end.

Definition is_chat (ev : event) : bool :=
  match ev with
  | ChatCompletion _ => true
  | _ => false
  end.

(** The calls issued between two states of one run. *)
Definition issued (before after : State) : list event :=
  skipn (List.length (trace before)) (trace after).

(* ================================================================== *)
(** ** incident_agent.py *)
(* ================================================================== *)

(** [SAFE_ACTIONS] *)
Definition SAFE_ACTIONS : list string := ["restart_pod"; "scale_up_deployment"].

(** An entry of the [auto_executed] list. *)
Record Executed : Type := {
  action : string;
  outcome : string   (* the "result" key *)
}.

Record IncidentResult : Type := {
  analysis : json;
  total_pods : nat;
  unhealthy_pods : nat;   (* cluster_context["unhealthy"] *)
  auto_executed : list Executed
}.

Definition skipped_marker : string := "Requires deployment name — skipped".

Section Agents.

Variable w : World.

(** [IncidentAgent._init_k8s] *)
Definition _init_k8s : M unit := fun st =>
  if k8s_initialized st then (Ok tt, st)
  else if load_incluster_config w (trace st)
       || load_kube_config w (trace st)
  then (Ok tt, {| k8s_initialized := true; trace := trace st |})
  else (Ok tt, st).

Definition initialized : M bool := fun st => (Ok (k8s_initialized st), st).

Definition sum_restarts (cs : list ContainerStatus) : Z :=
  fold_right (fun c acc => (restart_count c + acc)%Z) 0%Z cs.

Definition summarize (pod : Pod) : PodStatus :=
  PodInfo (metadata_name pod) (status_phase pod)
    (sum_restarts (container_statuses pod))
    (forallb cs_ready (container_statuses pod)).

(** [IncidentAgent._get_pod_status] *)
Definition _get_pod_status (namespace : string) : M (list PodStatus) :=
  _init_k8s ;;;
  ready <- initialized ;;
  if negb ready then ret [PodError "K8s not available"]
  else
    pods <- call (ListPods namespace) (fun h => list_namespaced_pod w h namespace) ;;
    match pods with
    | None => raise ApiException
    | Some items => ret (map summarize items)
    end.

(** [IncidentAgent._get_pod_logs], with [tail] at its default of 50. *)
Definition _get_pod_logs (pod_name namespace : string) : M string :=
  _init_k8s ;;;
  ready <- initialized ;;
  if negb ready then ret "K8s not available — cannot fetch logs"
  else
    r <- call (ReadPodLog pod_name namespace 50)
           (fun h => read_namespaced_pod_log w h pod_name namespace 50%Z) ;;
    match r with
    | inl text => ret text
    | inr reason => ret ("Failed to fetch logs: " ++ reason)
    end.

(** [IncidentAgent._restart_pod] *)
Definition _restart_pod (pod_name namespace : string) : M string :=
  _init_k8s ;;;
  ready <- initialized ;;
  if negb ready then ret "K8s not available"
  else
    ok <- call (DeletePod pod_name namespace)
            (fun h => delete_namespaced_pod w h pod_name namespace) ;;
    if ok
    then ret ("Pod " ++ pod_name ++ " deleted — controller will recreate it")
    else raise ApiException.

(** [str(n)] for an integer. *)
Definition str_of_Z (n : Z) : string :=
  (if (n <? 0)%Z then "-" else "")
  ++ DecimalString.NilZero.string_of_uint (N.to_uint (Z.abs_N n)).

(** [IncidentAgent._scale_deployment]; no caller in the repository. *)
Definition _scale_deployment (deployment namespace : string) (replicas : Z)
  : M string :=
  _init_k8s ;;;
  ready <- initialized ;;
  if negb ready then ret "K8s not available"
  else
    ok <- call (PatchScale deployment namespace replicas)
            (fun h => patch_namespaced_deployment_scale w h deployment namespace replicas) ;;
    if ok
    then ret ("Deployment " ++ deployment ++ " scaled to "
              ++ str_of_Z replicas ++ " replicas")
    else raise ApiException.

(** [not p.get("ready") or p.get("restarts", 0) > 3] *)
Definition is_unhealthy (p : PodStatus) : bool :=
  match p with
  | PodError _ => true
  | PodInfo _ _ restarts ready => negb ready || (restarts >? 3)%Z
  end.

(** [pod["name"]] *)
Definition pod_name_of (p : PodStatus) : M string :=
  match p with
  | PodError _ => raise (KeyError "name")
  | PodInfo name _ _ _ => ret name
  end.

(** [d[k] = v] on an insertion-ordered dictionary. *)
Fixpoint dict_set {A : Type} (k : string) (v : A) (d : list (string * A))
  : list (string * A) :=
  match d with
  | [] => [(k, v)]
  | (k', v') :: d' =>
      if String.eqb k k' then (k, v) :: d' else (k', v') :: dict_set k v d'
  end.

(** The loop over [unhealthy[:3]] that fills [pod_logs]; in
    [pod_logs[pod["name"]] = ...] the right-hand side is evaluated before
    the subscript. *)
Fixpoint fetch_logs (pods : list PodStatus) (namespace : string)
    (pod_logs : list (string * string)) : M (list (string * string)) :=
  match pods with
  | [] => ret pod_logs
  | pod :: rest =>
      name <- pod_name_of pod ;;
      text <- _get_pod_logs name namespace ;;
      key <- pod_name_of pod ;;
      fetch_logs rest namespace (dict_set key text pod_logs)
  end.

(** The body of [for action in analysis["safe_actions"]]. *)
Fixpoint remediation_loop (actions : list json) (unhealthy : list PodStatus)
    (namespace : string) (executed : list Executed) : M (list Executed) :=
  match actions with
  | [] => ret executed
  | a :: rest =>
      if Json.eq_str a "restart_pod"
         && match unhealthy with [] => false | _ => true end
      then
        name <- pod_name_of (hd (PodError "") unhealthy) ;;
        r <- _restart_pod name namespace ;;
        remediation_loop rest unhealthy namespace
          (executed ++ [{| action := "restart_pod"; outcome := r |}])
      else if Json.eq_str a "scale_up_deployment"
      then
        remediation_loop rest unhealthy namespace
          (executed ++ [{| action := "scale_up_deployment";
                           outcome := skipped_marker |}])
      else remediation_loop rest unhealthy namespace executed
  end.

(** Lines 145-153 of [analyze]: auto-execute safe remediations for high
    severity. *)
Definition auto_remediate (severity : string) (analysis : json)
    (unhealthy : list PodStatus) (namespace : string) : M (list Executed) :=
  if String.eqb severity "high"
  then
    proposed <- lift (Json.get analysis "safe_actions") ;;
    if Json.truthy proposed
    then
      actions <- lift (Json.iter proposed) ;;
      remediation_loop actions unhealthy namespace []
    else ret []
  else ret [].

(** A chat-completion call followed by [json.loads] of its content. *)
Definition chat_json (req : request) : M json :=
  r <- call (ChatCompletion req) (fun h => chat_completion w h req) ;;
  match r with
  | ChatRaises => raise APIError
  | ChatContent None => raise TypeError
  | ChatContent (Some text) =>
      match json_loads w text with
      | Some v => ret v
      | None => raise JSONDecodeError
      end
  end.

(** [IncidentAgent.analyze] *)
Definition analyze (description severity namespace : string)
  : M IncidentResult :=
  pod_status <- _get_pod_status namespace ;;
  let unhealthy := filter is_unhealthy pod_status in
  pod_logs <- fetch_logs (firstn 3 unhealthy) namespace [] ;;
  analysis <- chat_json
    (IncidentRequest description severity pod_status unhealthy pod_logs) ;;
  executed <- auto_remediate severity analysis unhealthy namespace ;;
  ret {| analysis := analysis;
         total_pods := List.length pod_status;
         unhealthy_pods := List.length unhealthy;
         auto_executed := executed |}.


(* ------------------------------------------------------------------ *)
(** *** infra_agent.py: [plan] *)

Record PolicyCheck : Type := {
  approved : bool;
  violations : list Violation;
  policies_checked : nat
}.

Record InfraResult : Type := {
  plan_json : json;   (* the "plan" key *)
  policy_check : PolicyCheck;
  cost_estimate : CostEstimate;
  dry_run : bool;
  would_apply : bool
}.

(** The policy checks call [terraform_code.lower()] first, which only a
    [str] has. *)
Definition as_str (v : json) : M string :=
  match v with
  | JStr s => ret s
  | _ => raise AttributeError
  end.

(** [InfrastructureAgent.plan] *)
Definition plan (request_text environment : string) (dry : bool)
  : M InfraResult :=
  plan_v <- chat_json (PlanRequest environment request_text) ;;
  code_v <- lift (Json.get_default plan_v "terraform_code" (JStr "")) ;;
  terraform_code <- as_str code_v ;;
  let violations := _validate_policies terraform_code environment in
  let cost := _estimate_cost terraform_code in
  let approved := Nat.eqb (List.length violations) 0 in
  ret {| plan_json := plan_v;
         policy_check := {| approved := approved;
                            violations := violations;
                            policies_checked := List.length POLICIES |};
         cost_estimate := cost;
         dry_run := dry;
         would_apply := approved && negb dry |}.

(* ------------------------------------------------------------------ *)
(** *** pipeline_agent.py *)

(** The text of a suggestion, kept as the template that the f-string
    instantiates together with its arguments. *)
Inductive Description : Type :=
| NoCaching (job : string)
| ManySteps (job : string) (n : Z)
| NoArtifacts (job : string)
| AlreadyParallel (independent : list string).

Record Suggestion : Type := {
  s_type : string;
  s_job : string;
  impact : string;
  s_description : Description
}.

(** The three per-job rules, for one job. *)
Definition job_suggestions (total_jobs : Z) (job_name : string) (job : Job)
  : list Suggestion :=
  (if negb (has_cache job)
   then [{| s_type := "caching"; s_job := job_name; impact := "high";
            s_description := NoCaching job_name |}]
   else [])
  ++ (if (steps job >? 8)%Z && negb (has_matrix job)
      then [{| s_type := "parallelization"; s_job := job_name;
               impact := "medium";
               s_description := ManySteps job_name (steps job) |}]
      else [])
  ++ (if negb (has_artifacts job) && (total_jobs >? 1)%Z
      then [{| s_type := "artifacts"; s_job := job_name; impact := "low";
               s_description := NoArtifacts job_name |}]
      else []).

(** [[name for name, deps in jobs_with_deps.items() if not deps]] *)
Definition independent_jobs (jobs : list (string * Job)) : list string :=
  map fst (filter (fun nj => negb (Json.truthy (needs (snd nj)))) jobs).

(** [PipelineAgent._detect_quick_wins] *)
Definition _detect_quick_wins (a : WorkflowAnalysis) : list Suggestion :=
  match a with
  | WorkflowError _ => []
  | Workflow total_jobs jobs _ =>
      flat_map (fun nj => job_suggestions total_jobs (fst nj) (snd nj)) jobs
      ++ (if (1 <? List.length (independent_jobs jobs))%nat
          then [{| s_type := "parallelization"; s_job := "workflow";
                   impact := "high";
                   s_description := AlreadyParallel (independent_jobs jobs) |}]
          else [])
  end.

Record PipelineResult : Type := {
  workflow_analysis : WorkflowAnalysis;
  quick_wins : list Suggestion;
  ai_suggestions : json;
  summary_total_jobs : Z;
  optimization_opportunities : nat
}.

(** [PipelineAgent.optimize] *)
Definition optimize (repo workflow_content : string) : M PipelineResult :=
  a <- lift (parse_workflow w workflow_content) ;;
  let quick := _detect_quick_wins a in
  llm_suggestions <- chat_json (OptimizeRequest repo workflow_content) ;;
  suggestions <- lift (Json.get_default llm_suggestions "suggestions" (JArr [])) ;;
  n <- lift (Json.len suggestions) ;;
  ret {| workflow_analysis := a;
         quick_wins := quick;
         ai_suggestions := suggestions;
         summary_total_jobs :=
           match a with
           | WorkflowError _ => 0%Z
           | Workflow total_jobs _ _ => total_jobs
           end;
         optimization_opportunities := List.length quick + n |}.

(* ------------------------------------------------------------------ *)
(** *** orchestrator.py *)

(** Modelled from the spec: the retry controller that the decorator
    [@retry(stop=stop_after_attempt(3), wait=wait_exponential(min=1, max=10))]
    installs belongs to the tenacity library, which is not among the
    sources.  Following section 4.2: the waits between attempts grow
    exponentially from [min] and are capped at [max]. *)
Definition wait_exponential (min max : Z) (attempt_number : nat) : Z :=
  Z.max (Z.max 0 min) (Z.min (2 ^ (Z.of_nat attempt_number - 1)) max).

(** Modelled from the spec: the retry controller of the tenacity library
    (see [wait_exponential]).  Following section 4.2: any failure of the
    wrapped operation is retried after a wait, up to [stop_after]
    attempts in total; once they are all spent the operation fails with
    [ClassificationUnavailable]. *)
Fixpoint retrying {A : Type} (attempts_left attempt_number : nat)
    (wait : nat -> Z) (f : M A) : M A :=
  match attempts_left with
  | O => raise ClassificationUnavailable
  | S remaining =>
      fun st =>
        match f st with
        | (Ok a, st') => (Ok a, st')
        | (Raise _, st') =>
            match remaining with
            | O => (Raise ClassificationUnavailable, st')
            | S _ =>
                (call (Sleep (wait attempt_number)) (fun _ => tt) ;;;
                 retrying remaining (S attempt_number) wait f) st'
            end
        end
  end.

Definition retry {A : Type} (stop_after_attempt : nat) (wait : nat -> Z)
    (f : M A) : M A :=
  retrying stop_after_attempt 1 wait f.

(** The body of [_classify_intent]: one call and the normalisation of
    its content. *)
Definition classify_once (text : string) : M string :=
  r <- call (ChatCompletion (ClassifyRequest text))
         (fun h => chat_completion w h (ClassifyRequest text)) ;;
  match r with
  | ChatRaises => raise APIError
  | ChatContent None => raise AttributeError
  | ChatContent (Some content) => ret (PyStr.lower (PyStr.strip content))
  end.

(** [AgentOrchestrator._classify_intent], decorator included. *)
Definition _classify_intent (text : string) : M string :=
  retry 3 (wait_exponential 1 10) (classify_once text).

Definition handle_incident (description severity namespace : string)
  : M IncidentResult :=
  analyze description severity namespace.

Definition handle_infrastructure (request_text environment : string)
    (dry : bool) : M InfraResult :=
  plan request_text environment dry.

Definition handle_pipeline (repo workflow_content : string)
  : M PipelineResult :=
  optimize repo workflow_content.

(** What [route] returns: the result of one handler, or the error
    dictionary with its [error] and [supported] keys. *)
Inductive RouteResult : Type :=
| RIncident (r : IncidentResult)
| RInfrastructure (r : InfraResult)
| RPipeline (r : PipelineResult)
| RUnknown (error : string) (supported : list string).

(** The [handlers] dictionary of [route]. *)
Definition handlers (text : string) : list (string * M RouteResult) :=
  [ ("incident",
     r <- handle_incident text "medium" "default" ;; ret (RIncident r));
    ("infrastructure",
     r <- handle_infrastructure text "staging" true ;; ret (RInfrastructure r));
    ("pipeline",
     r <- handle_pipeline "" text ;; ret (RPipeline r)) ].

(** [AgentOrchestrator.route] *)
Definition route (text : string) : M RouteResult :=
  intent <- _classify_intent text ;;
  match Json.assoc intent (handlers text) with
  | None =>
      ret (RUnknown ("Unknown intent: " ++ intent) (map fst (handlers text)))
  | Some handler => handler
  end.

End Agents.

Arguments _init_k8s w st : simpl never.

(* ================================================================== *)
(** ** Sample worlds, used to run the model on concrete inputs *)
(* ================================================================== *)

Module Sample.

Definition crashing_pod : Pod :=
  {| metadata_name := "api-7d9f";
     status_phase := "Running";
     container_statuses := [ {| restart_count := 5; cs_ready := false |} ] |}.

Definition healthy_pod : Pod :=
  {| metadata_name := "web-1";
     status_phase := "Running";
     container_statuses := [ {| restart_count := 0; cs_ready := true |} ] |}.

Definition proposes (actions : list string) : json :=
  JObj [ ("root_cause", JStr "OOMKilled");
         ("safe_actions", JArr (map JStr actions)) ].

(** A reachable cluster holding [pods], every call succeeding, and a
    reasoning engine that always answers [content], which parses to
    [parsed]. *)
Definition world (pods : list Pod) (content : string) (parsed : json) : World :=
  {| chat_completion := fun _ _ => ChatContent (Some content);
     json_loads := fun _ => Some parsed;
     parse_workflow := fun _ => Ok (WorkflowError "Not a valid workflow");
     load_incluster_config := fun _ => false;
     load_kube_config := fun _ => true;
     list_namespaced_pod := fun _ _ => Some pods;
     read_namespaced_pod_log := fun _ _ _ _ => inl "OOMKilled";
     delete_namespaced_pod := fun _ _ _ => true;
     patch_namespaced_deployment_scale := fun _ _ _ _ => true |}.

(** The same world with a reasoning engine whose first [failures] calls
    raise. *)
Definition flaky_world (failures : nat) (content : string) : World :=
  {| chat_completion := fun h _ =>
       if (List.length (filter is_chat h) <? failures)%nat
       then ChatRaises else ChatContent (Some content);
     json_loads := fun _ => Some (proposes ["restart_pod"]);
     parse_workflow := fun _ => Ok (WorkflowError "Not a valid workflow");
     load_incluster_config := fun _ => false;
     load_kube_config := fun _ => true;
     list_namespaced_pod := fun _ _ => Some [crashing_pod];
     read_namespaced_pod_log := fun _ _ _ _ => inl "OOMKilled";
     delete_namespaced_pod := fun _ _ _ => true;
     patch_namespaced_deployment_scale := fun _ _ _ _ => true |}.

(** A reasoning engine that is down. *)
Definition down_world : World :=
  {| chat_completion := fun _ _ => ChatRaises;
     json_loads := fun _ => None;
     parse_workflow := fun _ => Raise ParseError;
     load_incluster_config := fun _ => false;
     load_kube_config := fun _ => true;
     list_namespaced_pod := fun _ _ => Some [crashing_pod];
     read_namespaced_pod_log := fun _ _ _ _ => inr "Not Found";
     delete_namespaced_pod := fun _ _ _ => false;
     patch_namespaced_deployment_scale := fun _ _ _ _ => false |}.

Definition fresh : State := {| k8s_initialized := false; trace := [] |}.

Definition job (cache : bool) (n : Z) : Job :=
  {| steps := n; runs_on := "ubuntu-latest"; needs := JArr [];
     has_cache := cache; has_matrix := false; has_artifacts := false;
     uses_actions := ["actions/checkout"] |}.

End Sample.

(* ================================================================== *)
(** ** Vocabulary of the statements *)
(* ================================================================== *)

(** *** The policy table *)

(** The check of a rule of [POLICIES]; a rule that is absent passes. *)
Definition check_of (name : string) (tf : string) : bool :=
  match Json.assoc name POLICIES with
  | Some pol => check pol tf
  | None => true
  end.

(** A table with the check of one rule replaced. *)
Definition with_check (name : string) (chk : string -> bool)
    (table : list (string * Policy)) : list (string * Policy) :=
  map (fun np =>
         if String.eqb (fst np) name
         then (fst np, {| description := description (snd np); check := chk |})
         else np) table.

Definition names (vs : list Violation) : list string := map policy vs.

(** The substrings whose presence makes the check of a rule answer true.
    The check of [instance_size_limit] only looks for the absence of
    markers, so no text makes it pass. *)
Definition passing_indicators (rule : string) : list string :=
  if String.eqb rule "no_public_s3" then ["block_public"]
  else if String.eqb rule "enforce_tagging" then ["tags"]
  else if String.eqb rule "encryption_required" then ["encrypted"; "kms"]
  else [].

Definition without (rule : string) (vs : list Violation) : list Violation :=
  filter (fun v => negb (String.eqb (policy v) rule)) vs.

(** The violation a rule contributes, and whether it contributes one. *)
Definition violation_of (np : string * Policy) : Violation :=
  {| policy := fst np;
     v_description := description (snd np);
     v_severity := "high" |}.

Definition violated (tf env : string) (np : string * Policy) : bool :=
  negb (String.eqb (fst np) "instance_size_limit"
        && String.eqb env "production")
  && negb (check (snd np) tf).

(** *** Runs and their traces *)

(** [emits m P]: whatever the state and the outcome, a run of [m] only
    appends to the trace, and what it appends satisfies [P]. *)
Definition emits {A : Type} (m : M A) (P : list event -> Prop) : Prop :=
  forall st, exists evs,
    trace (snd (m st)) = (trace st ++ evs)%list /\ P evs.

(** [quiet m]: no run of [m] changes the cluster. *)
Definition quiet {A : Type} (m : M A) : Prop :=
  emits m (fun evs => filter is_mutation evs = []).

(** [chats_at_most n m]: no run of [m] calls the reasoning engine more
    than [n] times. *)
Definition chats_at_most {A : Type} (n : nat) (m : M A) : Prop :=
  emits m (fun evs => (List.length (filter is_chat evs) <= n)%nat).

(** *** The incident handler *)

(** The items the remediation loop iterates when the severity is high:
    those of [analysis["safe_actions"]] when that value is truthy. *)
Definition safe_actions_of (analysis : json) : list json :=
  match Json.get analysis "safe_actions" with
  | Ok v =>
      if Json.truthy v
      then match Json.iter v with Ok items => items | Raise _ => [] end
      else []
  | Raise _ => []
  end.

(** The reasoning engine proposes the action [a]. *)
Definition proposed (analysis : json) (a : string) : bool :=
  existsb (fun x => Json.eq_str x a) (safe_actions_of analysis).

(** The entries of [auto_executed] that record an execution, not a skip,
    by the name of their action. *)
Definition executed_actions (r : IncidentResult) : list string :=
  map action
    (filter (fun e => negb (String.eqb (outcome e) skipped_marker))
       (auto_executed r)).

Definition is_info (p : PodStatus) : Prop :=
  match p with
  | PodInfo _ _ _ _ => True
  | PodError _ => False
  end.

Definition first_name (unhealthy : list PodStatus) : option string :=
  match unhealthy with
  | PodInfo name _ _ _ :: _ => Some name
  | _ => None
  end.

(** What one proposed action adds to [auto_executed] ... *)
Definition recorded (unhealthy : list PodStatus) (a : json) : list Executed :=
  (if Json.eq_str a "restart_pod"
   then match first_name unhealthy with
        | Some name =>
            [{| action := "restart_pod";
                outcome := "Pod " ++ name
                           ++ " deleted — controller will recreate it" |}]
        | None => []
        end
   else [])
  ++ (if Json.eq_str a "scale_up_deployment"
      then [{| action := "scale_up_deployment"; outcome := skipped_marker |}]
      else []).

(** ... and the cluster mutation it issues. *)
Definition deletions (unhealthy : list PodStatus) (namespace : string)
    (a : json) : list event :=
  if Json.eq_str a "restart_pod"
  then match first_name unhealthy with
       | Some name => [DeletePod name namespace]
       | None => []
       end
  else [].

(** The gate as section 4.3 of the spec words it: true iff the severity
    is high and the action is on the allowlist. *)
Definition spec_may_auto_execute (action_id severity : string) : bool :=
  String.eqb severity "high" && PyStr.mem action_id SAFE_ACTIONS.

(** The executions among what the loop records: one per proposal of
    [restart_pod], provided a pod is unhealthy. *)
Definition restarts (unhealthy : list PodStatus) (a : json) : list string :=
  if Json.eq_str a "restart_pod"
  then match first_name unhealthy with
       | Some _ => ["restart_pod"]
       | None => []
       end
  else [].

(** *** The pipeline handler *)

Definition is_caching (s : Suggestion) : bool := String.eqb (s_type s) "caching".

(** A suggestion made for the workflow as a whole, not for one job. *)
Definition is_workflow_scope (s : Suggestion) : bool :=
  match s_description s with
  | AlreadyParallel _ => true
  | _ => false
  end.

(** *** The orchestrator *)

Definition SUPPORTED : list string := ["incident"; "infrastructure"; "pipeline"].

(** An attempt at classification fails when the call raises or carries
    no content. *)
Definition attempt_fails (w : World) (h : list event) (text : string) : bool :=
  match chat_completion w h (ClassifyRequest text) with
  | ChatContent (Some _) => false
  | _ => true
  end.

Definition after (st : State) (evs : list event) : State :=
  {| k8s_initialized := k8s_initialized st; trace := (trace st ++ evs)%list |}.

(* ================================================================== *)
(** ** The policy table: environment conditionality *)
(* ================================================================== *)

Example validate_staging_no_tags :
  map policy (_validate_policies "resource aws_s3_bucket b {}" "staging")
  = ["enforce_tagging"; "encryption_required"].
Proof. reflexivity. Qed.

Example estimate_cost_example :
  _estimate_cost "resource aws_s3_bucket b {} resource aws_instance i {}"
  = {| estimated_monthly_usd := 10;
       resources_detected := ["aws_instance"; "aws_s3_bucket"] |}.
Proof. reflexivity. Qed.

(** The violations of a table are those of its rules that are not
    skipped and whose check fails, in table order. *)
Lemma validate_policies_in_filter (table : list (string * Policy))
    (tf env : string) :
  validate_policies_in table tf env
  = map violation_of (filter (violated tf env) table).
Proof.
  induction table as [|[name pol] rest IH]; [reflexivity|].
  cbn [validate_policies_in filter]. unfold violated at 1. cbn [fst snd].
  destruct (String.eqb name "instance_size_limit" && String.eqb env "production");
    cbn [negb andb]; [exact IH|].
  destruct (check pol tf); cbn [negb map]; [exact IH|].
  now rewrite IH.
Qed.

(** Outside production no rule is skipped: the violations are the rules
    whose check fails. *)
Lemma validate_names_non_production (tf env : string) :
  env <> "production" ->
  names (_validate_policies tf env)
  = filter (fun name => negb (check_of name tf)) (map fst POLICIES).
Proof.
  intros Henv. unfold _validate_policies, names.
  rewrite validate_policies_in_filter, map_map. unfold violated.
  apply String.eqb_neq in Henv. rewrite Henv.
  cbn -[PyStr.contains PyStr.lower].
  repeat match goal with
         | |- context [if ?b then _ else _] =>
             destruct b; cbn -[PyStr.contains PyStr.lower]
         end; reflexivity.
Qed.

(** Outside production [instance_size_limit] is violated exactly when
    the artifact holds both size markers. *)
Lemma instance_size_limit_violation_iff (tf env : string) :
  env <> "production" ->
  In "instance_size_limit" (names (_validate_policies tf env))
  <-> PyStr.contains "2xlarge" tf = true /\ PyStr.contains "4xlarge" tf = true.
Proof.
  intros Henv. rewrite (validate_names_non_production tf env Henv).
  rewrite filter_In. unfold check_of. cbn -[PyStr.contains].
  destruct (PyStr.contains "2xlarge" tf), (PyStr.contains "4xlarge" tf); cbn;
    intuition discriminate.
Qed.

(** C3, evaluated on the code: in staging, an artifact that asks for a
    [2xlarge] instance raises no [instance_size_limit] violation, and
    neither does one that asks for a [4xlarge]; the check only fails when
    both markers occur. *)
Theorem instance_size_limit_misses_single_marker :
  ~ In "instance_size_limit"
      (names (_validate_policies "instance_type = m5.2xlarge tags" "staging"))
  /\ ~ In "instance_size_limit"
      (names (_validate_policies "instance_type = m5.4xlarge tags" "staging"))
  /\ check_of "instance_size_limit" "instance_type = m5.2xlarge tags" = true
  /\ In "instance_size_limit"
      (names (_validate_policies "m5.2xlarge m5.4xlarge tags" "staging")).
Proof.
  vm_compute. repeat split; try (intros [H|[]]; discriminate); try tauto.
Qed.

(** C7: in production [instance_size_limit] is skipped: it is never
    among the violations, the violations do not depend on what its check
    would answer, and approval is the conjunction of the other three
    checks. *)
Theorem production_skips_instance_size_limit (tf : string) :
  ~ In "instance_size_limit" (names (_validate_policies tf "production"))
  /\ (forall chk,
        validate_policies_in (with_check "instance_size_limit" chk POLICIES)
          tf "production"
        = _validate_policies tf "production")
  /\ Nat.eqb (List.length (_validate_policies tf "production")) 0
     = check_of "no_public_s3" tf
       && check_of "enforce_tagging" tf
       && check_of "encryption_required" tf.
Proof.
  unfold _validate_policies, check_of.
  cbn -[PyStr.contains PyStr.lower].
  destruct (PyStr.contains "public" (PyStr.lower tf)),
           (PyStr.contains "block_public" (PyStr.lower tf)),
           (PyStr.contains "tags" (PyStr.lower tf)),
           (PyStr.contains "encrypted" (PyStr.lower tf)),
           (PyStr.contains "kms" (PyStr.lower tf)),
           (PyStr.contains "s3" (PyStr.lower tf));
    cbn; (split; [| split; [intros chk; reflexivity | reflexivity]]);
    intuition discriminate.
Qed.

(** Scenario 4 of the spec: production, an artifact with a [4xlarge]
    instance (and, to show the skip, a [2xlarge] one). *)
Example scenario_production_4xlarge :
  names (_validate_policies
           "instance_type = m5.4xlarge m5.2xlarge tags = {}" "production") = []
  /\ names (_validate_policies
              "instance_type = m5.4xlarge m5.2xlarge tags = {}" "staging")
     = ["instance_size_limit"].
Proof. split; reflexivity. Qed.

(* ================================================================== *)
(** ** Substring search across a concatenation *)
(* ================================================================== *)

Module PyStrFacts.
Import PyStr.

Lemma strip_prefix_splits (a p v : string) :
  strip_prefix a p = Some v -> In (a, v) (splits p).
Proof.
  revert p. induction a as [|c a IH]; intros p H.
  - simpl in H. injection H as <-. destruct p; simpl; auto.
  - destruct p as [|d p]; simpl in H; [discriminate|].
    destruct (ascii_dec d c) as [->|]; [|discriminate].
    simpl. right. apply in_map_iff. exists (a, v). split; auto.
Qed.

Lemma strip_prefix_nil (a p : string) :
  strip_prefix a p = Some EmptyString -> String.prefix p a = true.
Proof.
  revert p. induction a as [|c a IH]; intros p H.
  - simpl in H. injection H as ->. reflexivity.
  - destruct p as [|d p]; simpl in H; [discriminate|].
    destruct (ascii_dec d c) as [->|] eqn:E; [|discriminate].
    simpl. rewrite E. auto.
Qed.

Lemma prefix_app (p a s : string) :
  String.prefix p (a ++ s)
  = String.prefix p a
    || match strip_prefix a p with
       | Some v => String.prefix v s
       | None => false
       end.
Proof.
  revert p. induction a as [|c a IH]; intros p.
  - destruct p, s; reflexivity.
  - destruct p as [|d p]; [reflexivity|].
    simpl. destruct (ascii_dec d c); [apply IH | reflexivity].
Qed.

Lemma prefix_contains (p t : string) :
  String.prefix p t = true -> contains p t = true.
Proof. intros H. destruct t; simpl in *; rewrite H; reflexivity. Qed.

Lemma eqb_ends_with (p t : string) :
  String.eqb p t = true -> ends_with p t = true.
Proof. intros H. destruct t; simpl in *; rewrite H; reflexivity. Qed.

Lemma contains_cons (p : string) (c : ascii) (t : string) :
  contains p (String c t) = String.prefix p (String c t) || contains p t.
Proof. reflexivity. Qed.

Lemma app_cons (c : ascii) (a s : string) :
  (String c a ++ s)%string = String c (a ++ s).
Proof. reflexivity. Qed.

(** Appending never loses an occurrence. *)
Lemma contains_app_l (p a s : string) :
  contains p a = true -> contains p (a ++ s) = true.
Proof.
  induction a as [|c a IH]; intros H.
  - destruct p; [|discriminate H]. destruct s; reflexivity.
  - rewrite app_cons, contains_cons. rewrite contains_cons in H.
    apply orb_true_iff in H. apply orb_true_iff.
    destruct H as [H|H]; [left | right; auto].
    rewrite <- app_cons, prefix_app, H. reflexivity.
Qed.

Lemma contains_app_r (p a s : string) :
  contains p s = true -> contains p (a ++ s) = true.
Proof.
  intros H. induction a as [|c a IH]; [exact H|].
  rewrite app_cons, contains_cons, IH. apply orb_true_r.
Qed.

(** An occurrence in [a ++ s] lies in [a], lies in [s], or straddles the
    junction. *)
Lemma contains_app_inv (p a s : string) :
  contains p (a ++ s) = true ->
  contains p a = true \/ contains p s = true
  \/ exists u, In u (overlap p s) /\ ends_with u a = true.
Proof.
  induction a as [|c a IH]; intros H.
  - right. left. exact H.
  - rewrite app_cons, contains_cons in H.
    apply orb_true_iff in H. destruct H as [H|H].
    + rewrite <- app_cons, prefix_app in H. apply orb_true_iff in H.
      destruct H as [H|H]; [left; now apply prefix_contains|].
      destruct (strip_prefix (String c a) p) as [v|] eqn:E; [|discriminate].
      destruct v as [|e v].
      * left. apply prefix_contains. now apply strip_prefix_nil.
      * right. right. exists (String c a). split.
        -- unfold overlap. apply in_map_iff.
           exists (String c a, String e v). split; [reflexivity|].
           apply filter_In. split; [now apply strip_prefix_splits|].
           simpl. exact H.
        -- apply eqb_ends_with, String.eqb_refl.
    + destruct (IH H) as [H1|[H1|(u & Hu & H1)]].
      * left. rewrite contains_cons, H1. apply orb_true_r.
      * right. left. exact H1.
      * right. right. exists u. split; [exact Hu|].
        cbn [ends_with]. rewrite H1. apply orb_true_r.
Qed.

(** Appending a text that neither contains [p] nor completes it across
    the junction leaves the search for [p] unchanged. *)
Lemma contains_app_clean (p a s : string) :
  contains p s = false ->
  forallb (fun u => negb (ends_with u a)) (overlap p s) = true ->
  contains p (a ++ s) = contains p a.
Proof.
  intros Hs Hov.
  destruct (contains p a) eqn:Ha; [now apply contains_app_l|].
  destruct (contains p (a ++ s)) eqn:H; [|reflexivity].
  apply contains_app_inv in H.
  destruct H as [H|[H|(u & Hu & H)]]; try congruence.
  rewrite forallb_forall in Hov. specialize (Hov u Hu).
  rewrite H in Hov. discriminate.
Qed.

Lemma lower_app (a s : string) : lower (a ++ s) = lower a ++ lower s.
Proof. induction a as [|c a IH]; simpl; [reflexivity | now rewrite IH]. Qed.

End PyStrFacts.

(* ================================================================== *)
(** ** The policy table: adding a passing indicator *)
(* ================================================================== *)

(** A failing [instance_size_limit] keeps failing whatever is appended. *)
Lemma instance_size_limit_never_recovers (a s : string) :
  check_of "instance_size_limit" a = false ->
  check_of "instance_size_limit" (a ++ s) = false.
Proof.
  unfold check_of. cbn -[PyStr.contains append].
  intros H. apply orb_false_iff in H. destruct H as [H2 H4].
  apply negb_false_iff in H2, H4.
  now rewrite (PyStrFacts.contains_app_l _ _ _ H2),
              (PyStrFacts.contains_app_l _ _ _ H4).
Qed.

Ltac junction_side :=
  first
    [ reflexivity
    | match goal with
      | |- forallb _ (PyStr.overlap ?p ?s) = true =>
          let o := eval vm_compute in (PyStr.overlap p s) in
          change (PyStr.overlap p s) with o
      end;
      cbn [forallb];
      repeat match goal with
             | H : PyStr.ends_with ?u ?a = false
               |- context [PyStr.ends_with ?u ?a] => rewrite H
             end;
      reflexivity ].

Ltac across_junction :=
  repeat match goal with
         | |- context [PyStr.contains ?p (?a ++ ?s)] =>
             first
               [ rewrite (PyStrFacts.contains_app_r p a s) by reflexivity
               | rewrite (PyStrFacts.contains_app_clean p a s)
                   by junction_side ]
         end.

Ltac by_cases_on_searches :=
  repeat match goal with
         | |- context [PyStr.contains ?p ?t] => destruct (PyStr.contains p t)
         end;
  cbn; intros; try discriminate; try reflexivity.

Lemma without_map_filter (rule : string) (f : string * Policy -> bool)
    (table : list (string * Policy)) :
  without rule (map violation_of (filter f table))
  = map violation_of
      (filter (fun np => negb (String.eqb (fst np) rule) && f np) table).
Proof.
  unfold without.
  induction table as [|np rest IH]; [reflexivity|].
  cbn [filter]. destruct (f np).
  - cbn [map filter violation_of policy].
    destruct (String.eqb (fst np) rule); cbn [negb andb]; [exact IH|].
    cbn [map]. now rewrite IH.
  - rewrite andb_false_r. exact IH.
Qed.

(** C8, as the code has it: the literal claim is refuted by an artifact
    whose last characters, together with the appended indicator, spell a
    size marker. *)
Lemma indicator_completes_size_marker :
  In "encrypted" (passing_indicators "encryption_required")
  /\ check_of "encryption_required" "s3 4xlarge 2xlarg" = false
  /\ names (_validate_policies "s3 4xlarge 2xlarg" "staging")
     = ["enforce_tagging"; "encryption_required"]
  /\ names (_validate_policies ("s3 4xlarge 2xlarg" ++ "encrypted") "staging")
     = ["enforce_tagging"; "instance_size_limit"]
  /\ _validate_policies ("s3 4xlarge 2xlarg" ++ "encrypted") "staging"
     <> without "encryption_required"
          (_validate_policies "s3 4xlarge 2xlarg" "staging").
Proof.
  repeat split; try reflexivity.
  - vm_compute. tauto.
  - vm_compute. discriminate.
Qed.

(** C8, amended: for a rule that has a passing indicator, appending the
    indicator to an artifact that fails the rule removes exactly that
    rule from the violations, as long as the indicator [encrypted] is not
    glued to an unfinished size marker; the rule is then one of the
    three that have an indicator. *)
Theorem indicator_removes_exactly_its_rule (rule s a env : string)
    (Hs : In s (passing_indicators rule))
    (Hfail : check_of rule a = false)
    (Hjunction : s = "encrypted" ->
                 PyStr.ends_with "2xlarg" a = false
                 /\ PyStr.ends_with "4xlarg" a = false) :
  _validate_policies (a ++ s) env = without rule (_validate_policies a env)
  /\ rule <> "instance_size_limit".
Proof.
  unfold passing_indicators in Hs.
  destruct (String.eqb_spec rule "no_public_s3") as [->|_];
    [|destruct (String.eqb_spec rule "enforce_tagging") as [->|_];
      [|destruct (String.eqb_spec rule "encryption_required") as [->|_];
        [|destruct Hs]]].
  all: split; [|discriminate].
  all: unfold _validate_policies.
  all: rewrite !validate_policies_in_filter, without_map_filter.
  all: f_equal; apply filter_ext_in.
  all: cbn in Hs.
  all: repeat match goal with
              | H : _ \/ _ |- _ => destruct H
              | H : False |- _ => destruct H
              end; subst s.
  all: try (destruct Hjunction as [Hj2 Hj4]; [reflexivity|]).
  all: unfold check_of in Hfail;
       cbn -[PyStr.contains PyStr.lower] in Hfail.
  all: intros np Hin; cbn [In POLICIES] in Hin;
       destruct Hin as [<-|[<-|[<-|[<-|[]]]]].
  all: unfold violated; cbn -[PyStr.contains PyStr.lower append].
  all: try destruct (String.eqb env "production"); cbn [negb andb].
  all: try reflexivity.
  all: rewrite ?PyStrFacts.lower_app.
  all: cbn [PyStr.lower];
       repeat match goal with
              | |- context [PyStr.lower_ascii ?c] =>
                  let v := eval vm_compute in (PyStr.lower_ascii c) in
                  change (PyStr.lower_ascii c) with v
              end.
  all: across_junction.
  all: revert Hfail; by_cases_on_searches.
Qed.

(** An unencrypted public bucket, then marked [encrypted]. *)
Lemma indicator_removes_exactly_its_rule_witness :
  _validate_policies ("resource aws_s3_bucket logs { acl = public }" ++ "encrypted")
    "staging"
  = without "encryption_required"
      (_validate_policies "resource aws_s3_bucket logs { acl = public }" "staging")
  /\ "encryption_required" <> "instance_size_limit".
Proof.
  apply (indicator_removes_exactly_its_rule "encryption_required" "encrypted"
           "resource aws_s3_bucket logs { acl = public }" "staging").
  - cbn. now left.
  - reflexivity.
  - intros _. split; reflexivity.
Defined.

(* ================================================================== *)
(** ** Reasoning about runs *)
(* ================================================================== *)

Lemma issued_app (st st' : State) (evs : list event) :
  trace st' = (trace st ++ evs)%list -> issued st st' = evs.
Proof.
  intros H. unfold issued. rewrite H.
  rewrite skipn_app, skipn_all, Nat.sub_diag. reflexivity.
Qed.

(** A successful run of [bind] is a successful run of each part. *)
Lemma bind_ok_inv {A B : Type} (m : M A) (k : A -> M B)
    (st st' : State) (b : B) :
  bind m k st = (Ok b, st') ->
  exists a st1, m st = (Ok a, st1) /\ k a st1 = (Ok b, st').
Proof.
  unfold bind. destruct (m st) as [[a|e] st1]; intros H.
  - now exists a, st1.
  - discriminate.
Qed.

Lemma lift_ok_inv {A : Type} (r : result A) (st st' : State) (a : A) :
  lift r st = (Ok a, st') -> r = Ok a /\ st' = st.
Proof.
  destruct r; unfold lift, ret, raise; intros H; inversion H; auto.
Qed.

Section Emits.

Context {A B : Type}.

Lemma emits_ret (a : A) (P : list event -> Prop) : P [] -> emits (ret a) P.
Proof. intros H st. exists []. now rewrite app_nil_r. Qed.

Lemma emits_raise (e : exn) (P : list event -> Prop) :
  P [] -> emits (@raise A e) P.
Proof. intros H st. exists []. now rewrite app_nil_r. Qed.

Lemma emits_lift (r : result A) (P : list event -> Prop) :
  P [] -> emits (lift r) P.
Proof. destruct r; [apply emits_ret | apply emits_raise]. Qed.

Lemma emits_call (ev : event) (answer : list event -> A)
    (P : list event -> Prop) :
  P [ev] -> emits (call ev answer) P.
Proof. intros H st. exists [ev]. now split. Qed.

Lemma emits_bind (m : M A) (k : A -> M B) (P Q R : list event -> Prop) :
  emits m P ->
  (forall a, emits (k a) Q) ->
  (forall e1, P e1 -> R e1) ->
  (forall e1 e2, P e1 -> Q e2 -> R (e1 ++ e2)%list) ->
  emits (bind m k) R.
Proof.
  intros Hm Hk Hfail Hseq st. unfold bind.
  destruct (Hm st) as (e1 & T1 & P1).
  destruct (m st) as [[a|e] st1]; simpl in T1.
  - destruct (Hk a st1) as (e2 & T2 & Q2).
    exists (e1 ++ e2)%list. split; [|now apply Hseq].
    now rewrite T2, T1, app_assoc.
  - exists e1. split; [exact T1 | now apply Hfail].
Qed.

End Emits.

Lemma emits_init (w : World) (P : list event -> Prop) :
  P [] -> emits (_init_k8s w) P.
Proof.
  intros H st. exists []. rewrite app_nil_r. split; [|exact H].
  unfold _init_k8s.
  destruct (k8s_initialized st); [reflexivity|].
  destruct (load_incluster_config w (trace st) || load_kube_config w (trace st));
    reflexivity.
Qed.

Lemma emits_initialized (P : list event -> Prop) :
  P [] -> emits initialized P.
Proof. intros H st. exists []. now rewrite app_nil_r. Qed.

Lemma quiet_bind {A B : Type} (m : M A) (k : A -> M B) :
  quiet m -> (forall a, quiet (k a)) -> quiet (bind m k).
Proof.
  intros Hm Hk. eapply emits_bind; eauto.
  intros e1 e2 H1 H2. cbn beta in *. now rewrite filter_app, H1, H2.
Qed.

Lemma chats_bind {A B : Type} (n1 n2 : nat) (m : M A) (k : A -> M B) :
  chats_at_most n1 m -> (forall a, chats_at_most n2 (k a)) ->
  chats_at_most (n1 + n2) (bind m k).
Proof.
  intros Hm Hk. eapply emits_bind; eauto; cbn beta.
  - intros e1 H1. lia.
  - intros e1 e2 H1 H2. rewrite filter_app, length_app. lia.
Qed.

Ltac trace_leaf := cbn; first [reflexivity | lia].

Ltac trace_step :=
  match goal with
  | H : ?G |- ?G => exact H
  | H : forall x, ?p (?f x) |- ?p (?f _) => apply H
  | |- quiet (bind _ _) => apply quiet_bind; [|intros; cbn beta]
  | |- chats_at_most 0 (bind _ _) =>
      apply (chats_bind 0 0); [|intros; cbn beta]
  | |- _ (ret _) => apply emits_ret; trace_leaf
  | |- _ (raise _) => apply emits_raise; trace_leaf
  | |- _ (lift _) => apply emits_lift; trace_leaf
  | |- _ (call _ _) => apply emits_call; trace_leaf
  | |- _ (_init_k8s _) => apply emits_init; trace_leaf
  | |- _ initialized => apply emits_initialized; trace_leaf
  | |- _ (if ?x then _ else _) => destruct x
  | |- _ (match ?x with _ => _ end) => destruct x
  end.

Ltac trace_auto := repeat trace_step.

(* ------------------------------------------------------------------ *)
(** *** The cluster accessors *)

Lemma get_pod_status_quiet (w : World) (ns : string) :
  quiet (_get_pod_status w ns).
Proof. unfold _get_pod_status. trace_auto. Qed.

Lemma get_pod_status_chats (w : World) (ns : string) :
  chats_at_most 0 (_get_pod_status w ns).
Proof. unfold _get_pod_status. trace_auto. Qed.

Lemma get_pod_logs_quiet (w : World) (pod ns : string) :
  quiet (_get_pod_logs w pod ns).
Proof. unfold _get_pod_logs. trace_auto. Qed.

Lemma get_pod_logs_chats (w : World) (pod ns : string) :
  chats_at_most 0 (_get_pod_logs w pod ns).
Proof. unfold _get_pod_logs. trace_auto. Qed.

Lemma fetch_logs_quiet (w : World) (pods : list PodStatus) (ns : string)
    (acc : list (string * string)) :
  quiet (fetch_logs w pods ns acc).
Proof.
  revert acc. induction pods as [|p pods IH]; intros acc; simpl.
  - trace_auto.
  - unfold pod_name_of. destruct p; trace_auto;
      first [apply get_pod_logs_quiet | apply IH].
Qed.

Lemma fetch_logs_chats (w : World) (pods : list PodStatus) (ns : string)
    (acc : list (string * string)) :
  chats_at_most 0 (fetch_logs w pods ns acc).
Proof.
  revert acc. induction pods as [|p pods IH]; intros acc; simpl.
  - trace_auto.
  - unfold pod_name_of. destruct p; trace_auto;
      first [apply get_pod_logs_chats | apply IH].
Qed.

Lemma chat_json_quiet (w : World) (req : request) : quiet (chat_json w req).
Proof. unfold chat_json. trace_auto. Qed.

Lemma chat_json_chats (w : World) (req : request) :
  chats_at_most 1 (chat_json w req).
Proof.
  unfold chat_json. apply (chats_bind 1 0); [|intros; cbn beta]; trace_auto.
Qed.

(* ================================================================== *)
(** ** The incident handler *)
(* ================================================================== *)

(** Scenario 1 of the spec: high severity, one unhealthy pod, the engine
    proposes [restart_pod]. *)
Example scenario_high_restart :
  let w := Sample.world [Sample.crashing_pod] "{}" (Sample.proposes ["restart_pod"]) in
  let '(r, st) := analyze w "api down" "high" "prod" Sample.fresh in
  match r with
  | Ok res =>
      auto_executed res
      = [ {| action := "restart_pod";
             outcome := "Pod api-7d9f deleted — controller will recreate it" |} ]
      /\ filter is_mutation (trace st) = [DeletePod "api-7d9f" "prod"]
  | Raise _ => False
  end.
Proof. vm_compute. split; reflexivity. Qed.

(** Scenario 2: the same with medium severity. *)
Example scenario_medium_restart :
  let w := Sample.world [Sample.crashing_pod] "{}" (Sample.proposes ["restart_pod"]) in
  let '(r, st) := analyze w "api down" "medium" "prod" Sample.fresh in
  match r with
  | Ok res => auto_executed res = [] /\ filter is_mutation (trace st) = []
  | Raise _ => False
  end.
Proof. vm_compute. split; reflexivity. Qed.

(** Without a reachable cluster the placeholder entry has no name and
    the log loop raises. *)
Example analyze_without_cluster :
  let w := {| chat_completion := fun _ _ => ChatContent (Some "{}");
              json_loads := fun _ => Some (JObj []);
              parse_workflow := fun _ => Raise ParseError;
              load_incluster_config := fun _ => false;
              load_kube_config := fun _ => false;
              list_namespaced_pod := fun _ _ => None;
              read_namespaced_pod_log := fun _ _ _ _ => inr "Not Found";
              delete_namespaced_pod := fun _ _ _ => false;
              patch_namespaced_deployment_scale := fun _ _ _ _ => false |} in
  fst (analyze w "api down" "high" "prod" Sample.fresh) = Raise (KeyError "name").
Proof. reflexivity. Qed.

Lemma init_k8s_run (w : World) (st : State) :
  exists b,
    _init_k8s w st = (Ok tt, {| k8s_initialized := b; trace := trace st |})
    /\ (k8s_initialized st = true -> b = true).
Proof.
  unfold _init_k8s. destruct st as [i h]; simpl.
  destruct i; [now exists true|].
  destruct (load_incluster_config w h || load_kube_config w h).
  - now exists true.
  - now exists false.
Qed.

Lemma init_k8s_ready (w : World) (st : State) :
  k8s_initialized st = true -> _init_k8s w st = (Ok tt, st).
Proof.
  intros H. unfold _init_k8s. now rewrite H.
Qed.

(** A successful [_get_pod_status] returns the placeholder, or the
    summaries of the pods the API lists, the client being initialised. *)
Lemma get_pod_status_ok (w : World) (ns : string) (st st1 : State)
    (ps : list PodStatus) :
  _get_pod_status w ns st = (Ok ps, st1) ->
  ps = [PodError "K8s not available"]
  \/ (Forall is_info ps /\ k8s_initialized st1 = true).
Proof.
  unfold _get_pod_status, bind, initialized.
  destruct (init_k8s_run w st) as (b & -> & _). cbn.
  destruct b; cbn.
  - unfold call. cbn.
    destruct (list_namespaced_pod w (trace st) ns) as [items|]; cbn;
      intros H; inversion H; subst. right. split; [|reflexivity].
    apply Forall_forall. intros p Hp. apply in_map_iff in Hp.
    destruct Hp as (pod & <- & _). exact I.
  - intros H. inversion H. now left.
Qed.

Lemma get_pod_logs_ready (w : World) (pod ns : string) (st st1 : State)
    (r : result string) :
  k8s_initialized st = true ->
  _get_pod_logs w pod ns st = (r, st1) -> k8s_initialized st1 = true.
Proof.
  intros Hi. unfold _get_pod_logs, bind, initialized.
  rewrite (init_k8s_ready w st Hi). cbn. rewrite Hi. cbn.
  destruct (read_namespaced_pod_log w (trace st) pod ns 50); cbn;
    intros H; inversion H; subst; exact Hi.
Qed.

(** A successful log loop has only met pods that carry a name. *)
Lemma fetch_logs_ok (w : World) (pods : list PodStatus) (ns : string)
    (acc logs : list (string * string)) (st st1 : State) :
  fetch_logs w pods ns acc st = (Ok logs, st1) ->
  Forall is_info pods
  /\ (k8s_initialized st = true -> k8s_initialized st1 = true).
Proof.
  revert acc st. induction pods as [|p pods IH]; intros acc st H.
  - inversion H. split; [constructor | auto].
  - destruct p as [msg | name phase restarts ready]; [discriminate H|].
    cbn [fetch_logs pod_name_of] in H. unfold bind at 1 2 in H.
    cbn [ret] in H.
    destruct (_get_pod_logs w name ns st) as [[text|e] st0] eqn:E;
      [|discriminate H].
    unfold bind at 1 in H. cbn [ret] in H.
    apply IH in H. destruct H as [Hall Hi]. split.
    + constructor; [exact I | exact Hall].
    + intros Hst. apply Hi. eapply get_pod_logs_ready; eauto.
Qed.

Lemma chat_json_ok (w : World) (req : request) (st st1 : State) (v : json) :
  chat_json w req st = (Ok v, st1) ->
  k8s_initialized st1 = k8s_initialized st
  /\ trace st1 = (trace st ++ [ChatCompletion req])%list.
Proof.
  unfold chat_json, bind, call. cbn.
  destruct (chat_completion w (trace st) req) as [|[text|]]; cbn;
    try discriminate.
  destruct (json_loads w text); cbn; intros H; inversion H; auto.
Qed.

(** The remediation loop, run to completion with an initialised client
    over pods that all carry a name. *)
Lemma remediation_loop_ok (w : World) (unhealthy : list PodStatus)
    (ns : string) (actions : list json) :
  Forall is_info unhealthy ->
  forall (acc ex : list Executed) (st st' : State),
    k8s_initialized st = true ->
    remediation_loop w actions unhealthy ns acc st = (Ok ex, st') ->
    ex = (acc ++ flat_map (recorded unhealthy) actions)%list
    /\ trace st' = (trace st ++ flat_map (deletions unhealthy ns) actions)%list.
Proof.
  intros Hall. induction actions as [|a actions IH]; intros acc ex st st' Hi H.
  - inversion H. cbn. now rewrite !app_nil_r.
  - cbn [remediation_loop flat_map] in H |- *.
    unfold recorded at 1, deletions at 1.
    destruct (Json.eq_str a "restart_pod") eqn:Ea.
    + assert (Json.eq_str a "scale_up_deployment" = false) as Eb.
      { destruct a; try discriminate Ea. cbn in *.
        apply String.eqb_eq in Ea. now subst. }
      rewrite Eb in *.
      destruct unhealthy as [|[msg|name ph rs rd] rest].
      * cbn in H |- *. now apply IH.
      * inversion Hall as [|? ? Hp _]. destruct Hp.
      * cbn [andb hd pod_name_of first_name] in H |- *.
        unfold bind at 1 2 in H. cbn [ret] in H.
        unfold _restart_pod, bind, initialized in H.
        rewrite (init_k8s_ready w st Hi) in H. cbn in H. rewrite Hi in H.
        cbn in H.
        destruct (delete_namespaced_pod w (trace st) name ns);
          [|discriminate H].
        cbn in H. apply IH in H; [|exact Hi].
        destruct H as [-> ->]. cbn. now rewrite <- !app_assoc.
    + cbn [andb] in H.
      destruct (Json.eq_str a "scale_up_deployment").
      * apply IH in H; [|exact Hi]. destruct H as [-> ->].
        cbn. now rewrite <- !app_assoc.
      * cbn. now apply IH.
Qed.

Lemma auto_remediate_ok (w : World) (sev : string) (analysis : json)
    (unhealthy : list PodStatus) (ns : string) (ex : list Executed)
    (st st' : State) :
  Forall is_info unhealthy ->
  k8s_initialized st = true ->
  auto_remediate w sev analysis unhealthy ns st = (Ok ex, st') ->
  let proposals :=
    if String.eqb sev "high" then safe_actions_of analysis else [] in
  ex = flat_map (recorded unhealthy) proposals
  /\ trace st' = (trace st ++ flat_map (deletions unhealthy ns) proposals)%list.
Proof.
  intros Hall Hi H. unfold auto_remediate in H. unfold safe_actions_of.
  destruct (String.eqb sev "high"); cbn zeta.
  - apply bind_ok_inv in H. destruct H as (v & st1 & Hget & H).
    apply lift_ok_inv in Hget. destruct Hget as [-> ->].
    destruct (Json.truthy v).
    + apply bind_ok_inv in H. destruct H as (items & st1 & Hit & H).
      apply lift_ok_inv in Hit. destruct Hit as [-> ->].
      now apply (remediation_loop_ok w unhealthy ns items Hall []) in H.
    + inversion H. cbn. now rewrite app_nil_r.
  - inversion H. cbn. now rewrite app_nil_r.
Qed.

Lemma deletions_are_mutations (unhealthy : list PodStatus) (ns : string)
    (actions : list json) :
  filter is_mutation (flat_map (deletions unhealthy ns) actions)
  = flat_map (deletions unhealthy ns) actions.
Proof.
  induction actions as [|a actions IH]; [reflexivity|].
  cbn [flat_map]. rewrite filter_app, IH. f_equal.
  unfold deletions.
  destruct (Json.eq_str a "restart_pod"); [|reflexivity].
  destruct (first_name unhealthy); reflexivity.
Qed.

(** What a successful [analyze] returns and which cluster mutations it
    has issued. *)
Lemma analyze_ok (w : World) (d sev ns : string) (st st' : State)
    (r : IncidentResult) :
  analyze w d sev ns st = (Ok r, st') ->
  exists ps,
    let unhealthy := filter is_unhealthy ps in
    let proposals :=
      if String.eqb sev "high" then safe_actions_of (analysis r) else [] in
    Forall is_info unhealthy
    /\ total_pods r = List.length ps
    /\ unhealthy_pods r = List.length unhealthy
    /\ auto_executed r = flat_map (recorded unhealthy) proposals
    /\ filter is_mutation (issued st st')
       = flat_map (deletions unhealthy ns) proposals.
Proof.
  intros H. unfold analyze in H.
  apply bind_ok_inv in H. destruct H as (ps & st1 & H1 & H).
  apply bind_ok_inv in H. destruct H as (logs & st2 & H2 & H).
  apply bind_ok_inv in H. destruct H as (v & st3 & H3 & H).
  apply bind_ok_inv in H. destruct H as (ex & st4 & H4 & H).
  inversion H; subst r st4; clear H. cbn [analysis total_pods unhealthy_pods auto_executed].
  exists ps. cbn zeta.
  pose proof (fetch_logs_ok _ _ _ _ _ _ _ H2) as [Hfirst Hi2].
  assert (Forall is_info ps /\ k8s_initialized st1 = true) as [Hps Hi1].
  { destruct (get_pod_status_ok _ _ _ _ _ H1) as [->|Hok]; [|exact Hok].
    cbn in Hfirst. inversion Hfirst as [|? ? Hp _]. destruct Hp. }
  assert (Forall is_info (filter is_unhealthy ps)) as Hun.
  { apply Forall_forall. intros p Hp. apply filter_In in Hp.
    rewrite Forall_forall in Hps. now apply Hps. }
  pose proof (chat_json_ok _ _ _ _ _ H3) as [Hi3 T3].
  assert (k8s_initialized st3 = true) as Hi by (rewrite Hi3; auto).
  pose proof (auto_remediate_ok _ _ _ _ _ _ _ _ Hun Hi H4) as [Hex T4].
  cbn zeta in Hex, T4.
  repeat split; try assumption.
  destruct (get_pod_status_quiet w ns st) as (e1 & T1 & Q1).
  rewrite H1 in T1. cbn [snd] in T1.
  destruct (fetch_logs_quiet w (firstn 3 (filter is_unhealthy ps)) ns [] st1)
    as (e2 & T2 & Q2).
  rewrite H2 in T2. cbn [snd] in T2.
  rewrite (issued_app st st'
             (e1 ++ e2 ++ [ChatCompletion
                             (IncidentRequest d sev ps
                                (filter is_unhealthy ps) logs)]
              ++ flat_map (deletions (filter is_unhealthy ps) ns)
                   (if String.eqb sev "high" then safe_actions_of v else []))).
  - rewrite !filter_app, Q1, Q2, deletions_are_mutations. reflexivity.
  - rewrite T4, T3, T2, T1. now rewrite <- !app_assoc.
Qed.

(** Below high severity [analyze] never changes the cluster, whether it
    returns or raises. *)
Lemma analyze_quiet_unless_high (w : World) (d sev ns : string) :
  sev <> "high" -> quiet (analyze w d sev ns).
Proof.
  intros Hsev. apply String.eqb_neq in Hsev.
  unfold analyze. trace_auto.
  - apply get_pod_status_quiet.
  - apply fetch_logs_quiet.
  - apply chat_json_quiet.
  - unfold auto_remediate. rewrite Hsev. trace_auto.
Qed.

Lemma analyze_chats (w : World) (d sev ns : string) :
  chats_at_most 1 (analyze w d sev ns).
Proof.
  unfold analyze.
  apply (chats_bind 0 1); [apply get_pod_status_chats | intros ps; cbn beta].
  apply (chats_bind 0 1); [apply fetch_logs_chats | intros logs; cbn beta].
  apply (chats_bind 1 0); [apply chat_json_chats | intros v; cbn beta].
  apply (chats_bind 0 0); [|intros; trace_auto].
  unfold auto_remediate.
  destruct (String.eqb sev "high"); [|trace_auto].
  apply (chats_bind 0 0); [trace_auto | intros p; cbn beta].
  destruct (Json.truthy p); [|trace_auto].
  apply (chats_bind 0 0); [trace_auto | intros items; cbn beta].
  generalize (@nil Executed).
  induction items as [|a items IH]; intros acc; cbn [remediation_loop];
    [trace_auto|].
  destruct (Json.eq_str a "restart_pod"
            && match filter is_unhealthy ps with [] => false | _ => true end).
  - apply (chats_bind 0 0); [unfold pod_name_of; trace_auto | intros n; cbn beta].
    apply (chats_bind 0 0); [|intros; apply IH].
    unfold _restart_pod. trace_auto.
  - destruct (Json.eq_str a "scale_up_deployment"); apply IH.
Qed.

Lemma recorded_executions (unhealthy : list PodStatus) (l : list json) :
  map action
    (filter (fun e => negb (String.eqb (outcome e) skipped_marker))
       (flat_map (recorded unhealthy) l))
  = flat_map (restarts unhealthy) l.
Proof.
  induction l as [|a l IH]; [reflexivity|].
  cbn [flat_map]. rewrite filter_app, map_app, IH. f_equal.
  unfold recorded, restarts.
  destruct (Json.eq_str a "restart_pod"), (Json.eq_str a "scale_up_deployment"),
    (first_name unhealthy); reflexivity.
Qed.

Lemma deletions_length (unhealthy : list PodStatus) (ns : string)
    (l : list json) :
  List.length (flat_map (deletions unhealthy ns) l)
  = List.length (flat_map (restarts unhealthy) l).
Proof.
  induction l as [|a l IH]; [reflexivity|].
  cbn [flat_map]. rewrite !length_app, IH. f_equal.
  unfold deletions, restarts.
  destruct (Json.eq_str a "restart_pod"), (first_name unhealthy); reflexivity.
Qed.

Lemma in_restarts (unhealthy : list PodStatus) (l : list json) (a : string) :
  In a (flat_map (restarts unhealthy) l)
  <-> a = "restart_pod"
      /\ existsb (fun x => Json.eq_str x a) l = true
      /\ first_name unhealthy <> None.
Proof.
  rewrite in_flat_map. split.
  - intros (x & Hx & Ha). unfold restarts in Ha.
    destruct (Json.eq_str x "restart_pod") eqn:E; [|destruct Ha].
    destruct (first_name unhealthy); [|destruct Ha].
    destruct Ha as [<-|[]]. repeat split; [|discriminate].
    apply existsb_exists. now exists x.
  - intros (-> & Hex & Hn). apply existsb_exists in Hex.
    destruct Hex as (x & Hx & E). exists x. split; [exact Hx|].
    unfold restarts. rewrite E.
    destruct (first_name unhealthy); [now left | congruence].
Qed.

Lemma recorded_allowlisted (unhealthy : list PodStatus) (l : list json)
    (e : Executed) :
  In e (flat_map (recorded unhealthy) l) ->
  In (action e) SAFE_ACTIONS
  /\ existsb (fun x => Json.eq_str x (action e)) l = true.
Proof.
  rewrite in_flat_map. intros (x & Hx & He). unfold recorded in He.
  apply in_app_or in He. destruct He as [He|He].
  - destruct (Json.eq_str x "restart_pod") eqn:E; [|destruct He].
    destruct (first_name unhealthy); [|destruct He].
    destruct He as [<-|[]]. cbn. split; [now left|].
    apply existsb_exists. now exists x.
  - destruct (Json.eq_str x "scale_up_deployment") eqn:E; [|destruct He].
    destruct He as [<-|[]]. cbn. split; [now right; left|].
    apply existsb_exists. now exists x.
Qed.

Lemma first_name_length (unhealthy : list PodStatus) :
  Forall is_info unhealthy ->
  (first_name unhealthy <> None <-> (0 < List.length unhealthy)%nat).
Proof.
  intros Hall. destruct unhealthy as [|[msg|n ph rs rd] rest]; cbn.
  - split; [congruence | lia].
  - inversion Hall as [|? ? Hp _]. destruct Hp.
  - split; [lia | discriminate].
Qed.

(** C1, as the code has it: under high severity the reasoning engine
    proposes [scale_up_deployment], which the spec's gate approves, and
    the handler executes nothing: no call changes the cluster and the
    only record says the action was skipped. *)
Lemma allowlisted_action_not_executed :
  exists r st',
    analyze
      (Sample.world [Sample.crashing_pod] "{}"
         (Sample.proposes ["scale_up_deployment"]))
      "api down" "high" "prod" Sample.fresh = (Ok r, st')
    /\ spec_may_auto_execute "scale_up_deployment" "high" = true
    /\ proposed (analysis r) "scale_up_deployment" = true
    /\ ~ In "scale_up_deployment" (executed_actions r)
    /\ filter is_mutation (issued Sample.fresh st') = []
    /\ auto_executed r
       = [{| action := "scale_up_deployment"; outcome := skipped_marker |}].
Proof.
  eexists. eexists. split; [vm_compute; reflexivity|].
  vm_compute. repeat split; tauto.
Qed.

(** C1, amended: in a completed incident analysis an action is executed
    iff the severity is high, the action is [restart_pod], the reasoning
    engine proposed it and some pod is unhealthy; every execution is one
    call that changes the cluster and there are no others; every entry
    of [auto_executed] names an allowlisted action that was proposed; and
    below high severity the list is empty. *)
Theorem auto_execution_gate (w : World) (d sev ns : string)
    (st st' : State) (r : IncidentResult)
    (Hrun : analyze w d sev ns st = (Ok r, st')) :
  (forall a,
      In a (executed_actions r)
      <-> sev = "high" /\ a = "restart_pod"
          /\ proposed (analysis r) a = true
          /\ (0 < unhealthy_pods r)%nat)
  /\ List.length (filter is_mutation (issued st st'))
     = List.length (executed_actions r)
  /\ (forall e, In e (auto_executed r) ->
        In (action e) SAFE_ACTIONS
        /\ proposed (analysis r) (action e) = true)
  /\ (sev <> "high" -> auto_executed r = []).
Proof.
  destruct (analyze_ok _ _ _ _ _ _ _ Hrun)
    as (ps & Hun & _ & Hlen & Hex & Hmut).
  cbn zeta in *. unfold executed_actions, proposed.
  rewrite Hex, Hmut, Hlen, recorded_executions.
  repeat split.
  - destruct (String.eqb_spec sev "high") as [->|]; [reflexivity|].
    destruct H.
  - apply in_restarts in H. tauto.
  - apply in_restarts in H.
    destruct (String.eqb sev "high"); [tauto | cbn in H; intuition discriminate].
  - apply in_restarts in H. apply first_name_length; tauto.
  - intros (-> & -> & Hp & Hpos). cbn [String.eqb Ascii.eqb Bool.eqb].
    apply in_restarts. repeat split; [exact Hp|].
    now apply first_name_length.
  - apply deletions_length.
  - apply recorded_allowlisted in H. tauto.
  - apply recorded_allowlisted in H.
    destruct (String.eqb sev "high"); [tauto | cbn in H; intuition discriminate].
  - intros Hsev. apply String.eqb_neq in Hsev. now rewrite Hsev.
Qed.

(** The gate on a run with one healthy and one crashing pod and three
    proposals. *)
Lemma auto_execution_gate_witness :
  exists r st',
    analyze
      (Sample.world [Sample.healthy_pod; Sample.crashing_pod] "{}"
         (Sample.proposes ["restart_pod"; "scale_up_deployment"; "drain_node"]))
      "api down" "high" "prod" Sample.fresh = (Ok r, st')
    /\ ((forall a,
            In a (executed_actions r)
            <-> "high" = "high" /\ a = "restart_pod"
                /\ proposed (analysis r) a = true
                /\ (0 < unhealthy_pods r)%nat)
        /\ List.length (filter is_mutation (issued Sample.fresh st'))
           = List.length (executed_actions r)
        /\ (forall e, In e (auto_executed r) ->
              In (action e) SAFE_ACTIONS
              /\ proposed (analysis r) (action e) = true)
        /\ ("high" <> "high" -> auto_executed r = [])).
Proof.
  eexists. eexists.
  assert (forall P Q : Prop, P -> (P -> Q) -> P /\ Q) as both by tauto.
  apply both; [vm_compute; reflexivity|].
  intros Hrun.
  exact (auto_execution_gate _ _ _ _ _ _ _ Hrun).
Defined.

(** C2, evaluated on the code: under high severity with no unhealthy pod
    the reasoning engine proposes [restart_pod] and [scale_up_deployment];
    the second is recorded as skipped, the first leaves no record. *)
Theorem restart_without_target_is_dropped :
  exists r st',
    analyze
      (Sample.world [Sample.healthy_pod] "{}"
         (Sample.proposes ["restart_pod"; "scale_up_deployment"]))
      "slow responses" "high" "prod" Sample.fresh = (Ok r, st')
    /\ proposed (analysis r) "restart_pod" = true
    /\ unhealthy_pods r = 0%nat
    /\ auto_executed r
       = [{| action := "scale_up_deployment"; outcome := skipped_marker |}]
    /\ ~ In "restart_pod" (map action (auto_executed r)).
Proof.
  eexists. eexists. split; [vm_compute; reflexivity|].
  vm_compute. repeat split. intros [H|[]]. discriminate.
Qed.

(* ================================================================== *)
(** ** The infrastructure handler *)
(* ================================================================== *)

Lemma plan_quiet (w : World) (req env : string) (dry : bool) :
  quiet (plan w req env dry).
Proof.
  unfold plan, as_str. trace_auto. apply chat_json_quiet.
Qed.

Lemma plan_chats (w : World) (req env : string) (dry : bool) :
  chats_at_most 1 (plan w req env dry).
Proof.
  unfold plan, as_str.
  apply (chats_bind 1 0); [apply chat_json_chats | intros; cbn beta].
  trace_auto.
Qed.

(** A successful [plan] has made one call, to the reasoning engine, and
    reports the policy check of the code it was given. *)
Lemma plan_ok (w : World) (req env : string) (dry : bool)
    (st st' : State) (r : InfraResult) :
  plan w req env dry st = (Ok r, st') ->
  exists tf,
    violations (policy_check r) = _validate_policies tf env
    /\ approved (policy_check r)
       = Nat.eqb (List.length (_validate_policies tf env)) 0
    /\ would_apply r = approved (policy_check r) && negb dry
    /\ dry_run r = dry
    /\ issued st st' = [ChatCompletion (PlanRequest env req)].
Proof.
  intros H. unfold plan in H.
  apply bind_ok_inv in H. destruct H as (v & st1 & H1 & H).
  apply bind_ok_inv in H. destruct H as (c & st2 & H2 & H).
  apply lift_ok_inv in H2. destruct H2 as [_ ->].
  apply bind_ok_inv in H. destruct H as (tf & st3 & H3 & H).
  destruct c; try discriminate H3. inversion H3; subst; clear H3.
  inversion H; subst; clear H. cbn.
  exists tf. repeat split.
  apply issued_app. now apply chat_json_ok in H1.
Qed.

(** C6: in the result of the infrastructure handler [approved] holds iff
    the list of violations is empty, [would_apply] is [approved and not
    dry_run], and the only call the handler has made is the one to the
    reasoning engine: nothing is applied. *)
Theorem plan_approval_is_advisory (w : World) (req env : string) (dry : bool)
    (st st' : State) (r : InfraResult)
    (Hrun : plan w req env dry st = (Ok r, st')) :
  (approved (policy_check r) = true <-> violations (policy_check r) = [])
  /\ would_apply r = approved (policy_check r) && negb dry
  /\ filter is_mutation (issued st st') = []
  /\ issued st st' = [ChatCompletion (PlanRequest env req)].
Proof.
  destruct (plan_ok _ _ _ _ _ _ _ Hrun) as (tf & Hv & Ha & Hw & _ & Hi).
  rewrite Hi, Ha, Hv. repeat split; auto.
  - intros H. apply Nat.eqb_eq in H. now apply length_zero_iff_nil.
  - intros ->. reflexivity.
  - rewrite Hw, Ha. reflexivity.
Qed.

(** The infrastructure handler on a compliant artifact with [dry_run]
    off. *)
Lemma plan_approval_is_advisory_witness :
  exists r st',
    plan
      (Sample.world [] "{}"
         (JObj [("terraform_code", JStr "resource aws_instance web { tags = {} }")]))
      "a small web server" "staging" false Sample.fresh = (Ok r, st')
    /\ ((approved (policy_check r) = true <-> violations (policy_check r) = [])
        /\ would_apply r = approved (policy_check r) && negb false
        /\ filter is_mutation (issued Sample.fresh st') = []
        /\ issued Sample.fresh st'
           = [ChatCompletion (PlanRequest "staging" "a small web server")]).
Proof.
  eexists. eexists.
  assert (forall P Q : Prop, P -> (P -> Q) -> P /\ Q) as both by tauto.
  apply both; [vm_compute; reflexivity|].
  intros Hrun.
  exact (plan_approval_is_advisory _ _ _ _ _ _ _ Hrun).
Defined.

(** Scenario 3 of the spec: staging, an artifact without [tags]. *)
Example scenario_staging_no_tags :
  match fst (plan
               (Sample.world [] "{}"
                  (JObj [("terraform_code", JStr "resource aws_instance web {}")]))
               "a small web server" "staging" true Sample.fresh) with
  | Ok r =>
      approved (policy_check r) = false
      /\ names (violations (policy_check r)) = ["enforce_tagging"]
      /\ would_apply r = false
  | Raise _ => False
  end.
Proof. vm_compute. repeat split. Qed.

(* ================================================================== *)
(** ** The pipeline handler *)
(* ================================================================== *)

Lemma optimize_quiet (w : World) (repo content : string) :
  quiet (optimize w repo content).
Proof.
  unfold optimize. trace_auto. apply chat_json_quiet.
Qed.

Lemma optimize_chats (w : World) (repo content : string) :
  chats_at_most 1 (optimize w repo content).
Proof.
  unfold optimize.
  apply (chats_bind 0 1); [trace_auto | intros; cbn beta].
  apply (chats_bind 1 0); [apply chat_json_chats | intros; cbn beta].
  trace_auto.
Qed.

Lemma job_suggestions_scope (total : Z) (name : string) (job : Job) :
  filter is_workflow_scope (job_suggestions total name job) = [].
Proof.
  unfold job_suggestions.
  destruct (negb (has_cache job)),
    ((steps job >? 8)%Z && negb (has_matrix job)),
    (negb (has_artifacts job) && (total >? 1)%Z); reflexivity.
Qed.

Lemma job_suggestions_caching (total : Z) (name : string) (job : Job) :
  has_cache job = false ->
  filter is_caching (job_suggestions total name job)
  = [{| s_type := "caching"; s_job := name; impact := "high";
        s_description := NoCaching name |}].
Proof.
  intros H. unfold job_suggestions. rewrite H.
  destruct ((steps job >? 8)%Z && negb (has_matrix job)),
    (negb (has_artifacts job) && (total >? 1)%Z); reflexivity.
Qed.

(** C9: for a workflow of two jobs that declare no [needs] and have no
    caching step, the quick wins hold one [caching] suggestion of high
    impact for each job, and exactly one suggestion at workflow scope, a
    [parallelization] one that lists both jobs as already running in
    parallel. *)
Theorem two_independent_uncached_jobs (n1 n2 : string) (j1 j2 : Job)
    (triggers : list string)
    (Hneeds1 : needs j1 = JArr []) (Hneeds2 : needs j2 = JArr [])
    (Hcache1 : has_cache j1 = false) (Hcache2 : has_cache j2 = false) :
  let wins := _detect_quick_wins (Workflow 2 [(n1, j1); (n2, j2)] triggers) in
  filter is_caching wins
  = [ {| s_type := "caching"; s_job := n1; impact := "high";
         s_description := NoCaching n1 |};
      {| s_type := "caching"; s_job := n2; impact := "high";
         s_description := NoCaching n2 |} ]
  /\ filter is_workflow_scope wins
     = [ {| s_type := "parallelization"; s_job := "workflow"; impact := "high";
            s_description := AlreadyParallel [n1; n2] |} ].
Proof.
  cbn zeta. unfold _detect_quick_wins, independent_jobs.
  cbn [flat_map filter fst snd map]. rewrite Hneeds1, Hneeds2.
  cbn [Json.truthy negb map fst List.length Nat.ltb Nat.leb filter].
  rewrite !filter_app, app_nil_r.
  rewrite !job_suggestions_caching, !job_suggestions_scope by assumption.
  split; reflexivity.
Qed.

(** Two jobs, the second named [workflow] and long enough to earn a
    per-job parallelization suggestion of its own. *)
Lemma two_independent_uncached_jobs_witness :
  let wins :=
    _detect_quick_wins
      (Workflow 2 [("build", Sample.job false 4); ("workflow", Sample.job false 12)]
         ["push"]) in
  filter is_caching wins
  = [ {| s_type := "caching"; s_job := "build"; impact := "high";
         s_description := NoCaching "build" |};
      {| s_type := "caching"; s_job := "workflow"; impact := "high";
         s_description := NoCaching "workflow" |} ]
  /\ filter is_workflow_scope wins
     = [ {| s_type := "parallelization"; s_job := "workflow"; impact := "high";
            s_description := AlreadyParallel ["build"; "workflow"] |} ].
Proof.
  apply (two_independent_uncached_jobs "build" "workflow"
           (Sample.job false 4) (Sample.job false 12) ["push"]);
    reflexivity.
Defined.

(* ================================================================== *)
(** ** The orchestrator *)
(* ================================================================== *)

Lemma classify_once_quiet (w : World) (text : string) :
  quiet (classify_once w text).
Proof. unfold classify_once. trace_auto. Qed.

Lemma classify_once_chats (w : World) (text : string) :
  chats_at_most 1 (classify_once w text).
Proof.
  unfold classify_once. apply (chats_bind 1 0); [|intros; cbn beta]; trace_auto.
Qed.

(** One attempt: the call is recorded, and the attempt succeeds with
    the normalised content exactly when the call carries a content. *)
Lemma classify_once_run (w : World) (text : string) (st : State) :
  classify_once w text st
  = (match chat_completion w (trace st) (ClassifyRequest text) with
     | ChatRaises => Raise APIError
     | ChatContent None => Raise AttributeError
     | ChatContent (Some content) => Ok (PyStr.lower (PyStr.strip content))
     end,
     after st [ChatCompletion (ClassifyRequest text)]).
Proof.
  unfold classify_once, bind, call, after. cbn.
  destruct (chat_completion w (trace st) (ClassifyRequest text)) as [|[c|]];
    reflexivity.
Qed.

Lemma classify_once_fails (w : World) (text : string) (st : State) :
  attempt_fails w (trace st) text = true ->
  exists e,
    classify_once w text st
    = (Raise e, after st [ChatCompletion (ClassifyRequest text)]).
Proof.
  unfold attempt_fails. rewrite classify_once_run.
  destruct (chat_completion w (trace st) (ClassifyRequest text)) as [|[c|]];
    intros H; try discriminate H; eexists; reflexivity.
Qed.

Section Retrying.

Context {A : Type} (wait : nat -> Z) (f : M A).

Lemma retrying_quiet (n k : nat) : quiet f -> quiet (retrying n k wait f).
Proof.
  intros Hf. revert k. induction n as [|n IH]; intros k; cbn [retrying].
  - trace_auto.
  - intros st. destruct (Hf st) as (e1 & T1 & Q1).
    destruct (f st) as [[a|e] st1]; cbn [snd] in *.
    + now exists e1.
    + destruct n as [|n]; [now exists e1|].
      assert (quiet (call (Sleep (wait k)) (fun _ => tt) ;;;
                     retrying (S n) (S k) wait f)) as Hrest
        by (apply quiet_bind; [trace_auto | intros; apply IH]).
      destruct (Hrest st1) as (e2 & T2 & Q2).
      exists (e1 ++ e2)%list. rewrite T2, T1, app_assoc, filter_app, Q1, Q2.
      now split.
Qed.

Lemma retrying_chats (n k : nat) :
  chats_at_most 1 f -> chats_at_most n (retrying n k wait f).
Proof.
  intros Hf. revert k. induction n as [|n IH]; intros k; cbn [retrying].
  - trace_auto.
  - intros st. destruct (Hf st) as (e1 & T1 & Q1).
    destruct (f st) as [[a|e] st1]; cbn [snd] in *.
    + exists e1. split; [exact T1 | lia].
    + destruct n as [|n]; [exists e1; split; [exact T1 | lia]|].
      assert (chats_at_most (0 + S n)
                (call (Sleep (wait k)) (fun _ => tt) ;;;
                 retrying (S n) (S k) wait f)) as Hrest
        by (apply chats_bind; [trace_auto | intros; apply IH]).
      destruct (Hrest st1) as (e2 & T2 & Q2).
      exists (e1 ++ e2)%list. rewrite T2, T1, app_assoc, filter_app, length_app.
      split; [reflexivity | lia].
Qed.

End Retrying.

Lemma classify_intent_quiet (w : World) (text : string) :
  quiet (_classify_intent w text).
Proof. apply retrying_quiet, classify_once_quiet. Qed.

Lemma classify_intent_chats (w : World) (text : string) :
  chats_at_most 3 (_classify_intent w text).
Proof. apply retrying_chats, classify_once_chats. Qed.

Lemma wait_exponential_bounds (n : nat) :
  (1 <= wait_exponential 1 10 n <= 10)%Z.
Proof. unfold wait_exponential. lia. Qed.

(** C4: classification makes at most three calls; the waits between
    attempts start at 1, double, and stay within 1 and 10; when the first
    two attempts fail and the third succeeds, the third content is
    returned, normalised, after exactly three calls; when every attempt
    fails, classification fails with [ClassificationUnavailable] after
    exactly three calls; and each specialist handler calls the reasoning
    engine at most once, so nothing is retried outside the classifier. *)
Theorem classification_retry (w : World) (text : string) (st : State) :
  let ask := ChatCompletion (ClassifyRequest text) in
  (List.length (filter is_chat
                  (issued st (snd (_classify_intent w text st)))) <= 3)%nat
  /\ (wait_exponential 1 10 1 = 1%Z /\ wait_exponential 1 10 2 = 2%Z
      /\ forall n, (1 <= wait_exponential 1 10 n <= 10)%Z)
  /\ (forall content,
        attempt_fails w (trace st) text = true ->
        attempt_fails w (trace st ++ [ask; Sleep 1])%list text = true ->
        chat_completion w (trace st ++ [ask; Sleep 1; ask; Sleep 2])%list
          (ClassifyRequest text) = ChatContent (Some content) ->
        _classify_intent w text st
        = (Ok (PyStr.lower (PyStr.strip content)),
           after st [ask; Sleep 1; ask; Sleep 2; ask]))
  /\ ((forall h, attempt_fails w h text = true) ->
      _classify_intent w text st
      = (Raise ClassificationUnavailable,
         after st [ask; Sleep 1; ask; Sleep 2; ask]))
  /\ (forall d sev ns, chats_at_most 1 (analyze w d sev ns))
  /\ (forall req env dry, chats_at_most 1 (plan w req env dry))
  /\ (forall repo content, chats_at_most 1 (optimize w repo content)).
Proof.
  cbn zeta. repeat split.
  - destruct (classify_intent_chats w text st) as (evs & T & Hle).
    now rewrite (issued_app _ _ _ T).
  - apply wait_exponential_bounds.
  - apply wait_exponential_bounds.
  - intros content F1 F2 S3.
    unfold _classify_intent, retry. cbn [retrying].
    destruct (classify_once_fails w text st F1) as (e1 & ->).
    unfold bind at 1, call at 1. cbn [trace k8s_initialized after].
    change (wait_exponential 1 10 1) with 1%Z.
    rewrite <- app_assoc. cbn [app].
    match goal with
    | |- context [classify_once w text ?s] =>
        destruct (classify_once_fails w text s F2) as (e2 & ->)
    end.
    unfold bind at 1, call at 1. cbn [trace k8s_initialized after].
    change (wait_exponential 1 10 2) with 2%Z.
    rewrite <- !app_assoc. cbn [app].
    rewrite classify_once_run. cbn [trace]. rewrite S3.
    unfold after. cbn [trace k8s_initialized].
    now rewrite <- !app_assoc.
  - intros Hall.
    unfold _classify_intent, retry. cbn [retrying].
    destruct (classify_once_fails w text st (Hall _)) as (e1 & ->).
    unfold bind at 1, call at 1. cbn [trace k8s_initialized after].
    change (wait_exponential 1 10 1) with 1%Z.
    match goal with
    | |- context [classify_once w text ?s] =>
        destruct (classify_once_fails w text s (Hall _)) as (e2 & ->)
    end.
    unfold bind at 1, call at 1. cbn [trace k8s_initialized after].
    change (wait_exponential 1 10 2) with 2%Z.
    match goal with
    | |- context [classify_once w text ?s] =>
        destruct (classify_once_fails w text s (Hall _)) as (e3 & ->)
    end.
    unfold after. cbn [trace k8s_initialized].
    now rewrite <- !app_assoc.
  - apply analyze_chats.
  - apply plan_chats.
  - apply optimize_chats.
Qed.

(** An engine that fails twice and then answers, and one that is down. *)
Lemma classification_retry_witness :
  _classify_intent (Sample.flaky_world 2 "  Incident ") "pods keep crashing"
    Sample.fresh
  = (Ok "incident",
     after Sample.fresh
       [ChatCompletion (ClassifyRequest "pods keep crashing"); Sleep 1;
        ChatCompletion (ClassifyRequest "pods keep crashing"); Sleep 2;
        ChatCompletion (ClassifyRequest "pods keep crashing")])
  /\ _classify_intent Sample.down_world "pods keep crashing" Sample.fresh
     = (Raise ClassificationUnavailable,
        after Sample.fresh
          [ChatCompletion (ClassifyRequest "pods keep crashing"); Sleep 1;
           ChatCompletion (ClassifyRequest "pods keep crashing"); Sleep 2;
           ChatCompletion (ClassifyRequest "pods keep crashing")]).
Proof.
  split.
  - destruct (classification_retry (Sample.flaky_world 2 "  Incident ")
                "pods keep crashing" Sample.fresh) as (_ & _ & H & _).
    apply (H "  Incident "); reflexivity.
  - destruct (classification_retry Sample.down_world
                "pods keep crashing" Sample.fresh) as (_ & _ & _ & H & _).
    apply H. intros h. reflexivity.
Defined.

(** C5: when classification yields an intent that is none of the three
    supported ones, [route] returns the error value that names them, in
    the state classification left: no handler has run and nothing is
    raised. *)
Theorem route_unrecognized_intent (w : World) (text intent : string)
    (st st1 : State)
    (Hclassified : _classify_intent w text st = (Ok intent, st1))
    (Hunknown : ~ In intent SUPPORTED) :
  route w text st
  = (Ok (RUnknown ("Unknown intent: " ++ intent) SUPPORTED), st1).
Proof.
  unfold route, bind. rewrite Hclassified.
  unfold SUPPORTED in Hunknown. cbn [In] in Hunknown.
  cbn [handlers Json.assoc].
  destruct (String.eqb_spec intent "incident") as [->|_]; [tauto|].
  destruct (String.eqb_spec intent "infrastructure") as [->|_]; [tauto|].
  destruct (String.eqb_spec intent "pipeline") as [->|_]; [tauto|].
  reflexivity.
Qed.

(** An engine that answers with a category the router does not know. *)
Lemma route_unrecognized_intent_witness :
  route (Sample.world [Sample.crashing_pod] "  Deploy " (JObj []))
    "ship it" Sample.fresh
  = (Ok (RUnknown "Unknown intent: deploy" SUPPORTED),
     after Sample.fresh [ChatCompletion (ClassifyRequest "ship it")]).
Proof.
  apply (route_unrecognized_intent
           (Sample.world [Sample.crashing_pod] "  Deploy " (JObj []))
           "ship it" "deploy").
  - reflexivity.
  - cbn. intros [H|[H|[H|[]]]]; discriminate H.
Defined.

Lemma route_quiet (w : World) (text : string) : quiet (route w text).
Proof.
  unfold route. apply quiet_bind; [apply classify_intent_quiet|].
  intros intent. cbn [handlers Json.assoc].
  destruct (String.eqb intent "incident").
  { unfold handle_incident. apply quiet_bind; [|intros; trace_auto].
    apply analyze_quiet_unless_high. discriminate. }
  destruct (String.eqb intent "infrastructure").
  { unfold handle_infrastructure. apply quiet_bind; [|intros; trace_auto].
    apply plan_quiet. }
  destruct (String.eqb intent "pipeline").
  { unfold handle_pipeline. apply quiet_bind; [|intros; trace_auto].
    apply optimize_quiet. }
  trace_auto.
Qed.

(** C10: the [incident] entry of the handler table runs the analysis
    with severity [medium] and namespace [default]; a request that enters
    through [route] issues no call that changes the cluster, whether it
    returns or raises, and when it returns the result of the incident
    handler, its [auto_executed] list is empty. *)
Theorem route_never_auto_executes (w : World) (text : string) (st : State) :
  Json.assoc "incident" (handlers w text)
  = Some (r <- analyze w text "medium" "default" ;; ret (RIncident r))
  /\ filter is_mutation (issued st (snd (route w text st))) = []
  /\ match fst (route w text st) with
     | Ok (RIncident r) => auto_executed r = []
     | _ => True
     end.
Proof.
  split; [reflexivity|]. split.
  - destruct (route_quiet w text st) as (evs & T & Q).
    now rewrite (issued_app _ _ _ T).
  - destruct (route w text st) as [[[r|r|r|e s]|e] st'] eqn:H; cbn; auto.
    unfold route in H.
    apply bind_ok_inv in H. destruct H as (intent & st1 & _ & H).
    cbn [handlers Json.assoc] in H.
    destruct (String.eqb intent "incident").
    { apply bind_ok_inv in H. destruct H as (r0 & st2 & Hrun & H).
      inversion H; subst.
      destruct (analyze_ok _ _ _ _ _ _ _ Hrun) as (ps & _ & _ & _ & Hex & _).
      exact Hex. }
    destruct (String.eqb intent "infrastructure").
    { apply bind_ok_inv in H. destruct H as (r0 & st2 & _ & H). discriminate H. }
    destruct (String.eqb intent "pipeline").
    { apply bind_ok_inv in H. destruct H as (r0 & st2 & _ & H). discriminate H. }
    discriminate H.
Qed.

(** Through [route] a proposal to restart a crashing pod stays a
    suggestion. *)
Example route_incident_example :
  match route (Sample.world [Sample.crashing_pod] "incident"
                 (Sample.proposes ["restart_pod"]))
          "pods keep crashing" Sample.fresh with
  | (Ok (RIncident r), st') =>
      proposed (analysis r) "restart_pod" = true
      /\ unhealthy_pods r = 1%nat
      /\ auto_executed r = []
      /\ filter is_mutation (trace st') = []
  | _ => False
  end.
Proof. vm_compute. repeat split. Qed.


(* ================================================================== *)
(** ** Further properties: the cluster accessors *)
(* ================================================================== *)

(** The Kubernetes client can be used from state [st]: it is already
    initialised, or one of the two configurations loads. *)
Definition client_ready (w : World) (st : State) : bool :=
  k8s_initialized st
  || load_incluster_config w (trace st)
  || load_kube_config w (trace st).

(** The state after a call made through an initialised client. *)
Definition ready_after (st : State) (evs : list event) : State :=
  {| k8s_initialized := true; trace := (trace st ++ evs)%list |}.

(** A run of [bind], whatever its outcome. *)
Lemma bind_inv {A B : Type} (m : M A) (k : A -> M B)
    (st st' : State) (res : result B) :
  bind m k st = (res, st') ->
  (exists a st1, m st = (Ok a, st1) /\ k a st1 = (res, st'))
  \/ (exists e, m st = (Raise e, st') /\ res = Raise e).
Proof.
  unfold bind. destruct (m st) as [[a|e] st1]; intros H.
  - left. now exists a, st1.
  - right. exists e. inversion H. auto.
Qed.

Lemma accessor_run {A : Type} (w : World) (down : M A) (up : M A) (st : State) :
  (_init_k8s w ;;; ready <- initialized ;; if negb ready then down else up) st
  = if client_ready w st
    then up {| k8s_initialized := true; trace := trace st |}
    else down st.
Proof.
  unfold bind, _init_k8s, initialized, client_ready.
  destruct st as [i h]; cbn. destruct i; cbn; [reflexivity|].
  destruct (load_incluster_config w h || load_kube_config w h); reflexivity.
Qed.

Lemma get_pod_status_run (w : World) (ns : string) (st : State) :
  _get_pod_status w ns st
  = if client_ready w st
    then (match list_namespaced_pod w (trace st) ns with
          | Some items => Ok (map summarize items)
          | None => Raise ApiException
          end, ready_after st [ListPods ns])
    else (Ok [PodError "K8s not available"], st).
Proof.
  unfold _get_pod_status. rewrite accessor_run.
  destruct (client_ready w st); [|reflexivity].
  unfold bind, call, ready_after. cbn.
  destruct (list_namespaced_pod w (trace st) ns); reflexivity.
Qed.

Lemma get_pod_logs_run (w : World) (pod ns : string) (st : State) :
  _get_pod_logs w pod ns st
  = if client_ready w st
    then (Ok match read_namespaced_pod_log w (trace st) pod ns 50 with
             | inl text => text
             | inr reason => "Failed to fetch logs: " ++ reason
             end, ready_after st [ReadPodLog pod ns 50])
    else (Ok "K8s not available — cannot fetch logs", st).
Proof.
  unfold _get_pod_logs. rewrite accessor_run.
  destruct (client_ready w st); [|reflexivity].
  unfold bind, call, ready_after. cbn.
  destruct (read_namespaced_pod_log w (trace st) pod ns 50); reflexivity.
Qed.

Lemma restart_pod_run (w : World) (pod ns : string) (st : State) :
  _restart_pod w pod ns st
  = if client_ready w st
    then (if delete_namespaced_pod w (trace st) pod ns
          then Ok ("Pod " ++ pod ++ " deleted — controller will recreate it")
          else Raise ApiException,
          ready_after st [DeletePod pod ns])
    else (Ok "K8s not available", st).
Proof.
  unfold _restart_pod. rewrite accessor_run.
  destruct (client_ready w st); [|reflexivity].
  unfold bind, call, ready_after. cbn.
  destruct (delete_namespaced_pod w (trace st) pod ns); reflexivity.
Qed.

Lemma scale_deployment_run (w : World) (name ns : string) (n : Z) (st : State) :
  _scale_deployment w name ns n st
  = if client_ready w st
    then (if patch_namespaced_deployment_scale w (trace st) name ns n
          then Ok ("Deployment " ++ name ++ " scaled to "
                   ++ str_of_Z n ++ " replicas")
          else Raise ApiException,
          ready_after st [PatchScale name ns n])
    else (Ok "K8s not available", st).
Proof.
  unfold _scale_deployment. rewrite accessor_run.
  destruct (client_ready w st); [|reflexivity].
  unfold bind, call, ready_after. cbn.
  destruct (patch_namespaced_deployment_scale w (trace st) name ns n);
    reflexivity.
Qed.

Lemma issued_refl (st : State) : issued st st = [].
Proof. apply issued_app. now rewrite app_nil_r. Qed.

Lemma issued_ready_after (st : State) (evs : list event) :
  issued st (ready_after st evs) = evs.
Proof. now apply issued_app. Qed.


(** X2: the two write accessors against an unusable client return the
    text [K8s not available] as an ordinary result, issue no call and do
    not raise; with a usable client each issues exactly one mutating
    call and raises exactly when the API refuses it. *)
Theorem write_accessors_contract (w : World) (name ns : string) (n : Z)
    (st : State) :
  (client_ready w st = false ->
   _restart_pod w name ns st = (Ok "K8s not available", st)
   /\ _scale_deployment w name ns n st = (Ok "K8s not available", st))
  /\ (client_ready w st = true ->
      issued st (snd (_restart_pod w name ns st)) = [DeletePod name ns]
      /\ issued st (snd (_scale_deployment w name ns n st))
         = [PatchScale name ns n]
      /\ (fst (_restart_pod w name ns st) = Raise ApiException
          <-> delete_namespaced_pod w (trace st) name ns = false)
      /\ (fst (_scale_deployment w name ns n st) = Raise ApiException
          <-> patch_namespaced_deployment_scale w (trace st) name ns n = false)).
Proof.
  rewrite restart_pod_run, scale_deployment_run.
  split; intros ->; [split; reflexivity|].
  cbn [fst snd]. rewrite !issued_ready_after.
  repeat split; try reflexivity.
  - destruct (delete_namespaced_pod w (trace st) name ns);
      [discriminate | reflexivity].
  - intros ->. reflexivity.
  - destruct (patch_namespaced_deployment_scale w (trace st) name ns n);
      [discriminate | reflexivity].
  - intros ->. reflexivity.
Qed.

(** A cluster that cannot be reached. *)
Definition unreachable_world : World :=
  {| chat_completion := fun _ _ => ChatContent (Some "{}");
     json_loads := fun _ => Some (Sample.proposes ["restart_pod"]);
     parse_workflow := fun _ => Raise ParseError;
     load_incluster_config := fun _ => false;
     load_kube_config := fun _ => false;
     list_namespaced_pod := fun _ _ => None;
     read_namespaced_pod_log := fun _ _ _ _ => inr "Not Found";
     delete_namespaced_pod := fun _ _ _ => false;
     patch_namespaced_deployment_scale := fun _ _ _ _ => false |}.

(** The accessors against an unreachable cluster, and against a cluster
    that refuses the deletion. *)
Lemma write_accessors_contract_witness :
  (_restart_pod unreachable_world "api-7d9f" "prod" Sample.fresh
   = (Ok "K8s not available", Sample.fresh)
   /\ _scale_deployment unreachable_world "api-7d9f" "prod" 3 Sample.fresh
      = (Ok "K8s not available", Sample.fresh))
  /\ (fst (_restart_pod Sample.down_world "api-7d9f" "prod" Sample.fresh)
      = Raise ApiException
      <-> delete_namespaced_pod Sample.down_world (trace Sample.fresh)
            "api-7d9f" "prod" = false).
Proof.
  split.
  - apply (proj1 (write_accessors_contract unreachable_world
                    "api-7d9f" "prod" 3 Sample.fresh)).
    reflexivity.
  - apply (proj2 (write_accessors_contract Sample.down_world
                    "api-7d9f" "prod" 3 Sample.fresh)).
    reflexivity.
Defined.

(* ================================================================== *)
(** ** Further properties: the incident handler *)
(* ================================================================== *)

Definition pod_names (pods : list PodStatus) : list string :=
  flat_map (fun p => match p with
                     | PodInfo name _ _ _ => [name]
                     | PodError _ => []
                     end) pods.

Definition read_log (ns : string) (name : string) : event :=
  ReadPodLog name ns 50.

(** A pod is reported unhealthy: a container is not ready, or the
    containers restarted more than three times in total. *)
Definition reported_unhealthy (pod : Pod) : bool :=
  negb (forallb cs_ready (container_statuses pod))
  || (sum_restarts (container_statuses pod) >? 3)%Z.

Lemma bind_unfold {A B : Type} (m : M A) (k : A -> M B) (st : State) :
  bind m k st
  = match m st with
    | (Ok a, st') => k a st'
    | (Raise e, st') => (Raise e, st')
    end.
Proof. reflexivity. Qed.

Lemma ready_after_after (st : State) (e1 e2 : list event) :
  ready_after (ready_after st e1) e2 = ready_after st (e1 ++ e2).
Proof. unfold ready_after. cbn. now rewrite app_assoc. Qed.

Lemma client_ready_initialized (w : World) (st : State) :
  k8s_initialized st = true -> client_ready w st = true.
Proof. unfold client_ready. now intros ->. Qed.

Lemma summaries_are_info (items : list Pod) :
  Forall is_info (map summarize items).
Proof.
  apply Forall_forall. intros p Hp. apply in_map_iff in Hp.
  destruct Hp as (pod & <- & _). exact I.
Qed.

Lemma filter_info (f : PodStatus -> bool) (ps : list PodStatus) :
  Forall is_info ps -> Forall is_info (filter f ps).
Proof.
  rewrite !Forall_forall. intros H p Hp. apply filter_In in Hp. now apply H.
Qed.

Lemma firstn_info (n : nat) (ps : list PodStatus) :
  Forall is_info ps -> Forall is_info (firstn n ps).
Proof.
  intros H. rewrite <- (firstn_skipn n ps) in H.
  now apply Forall_app in H.
Qed.


Lemma dict_set_length {A : Type} (k : string) (v : A) (d : list (string * A)) :
  (List.length (dict_set k v d) <= S (List.length d))%nat.
Proof.
  induction d as [|[k' v'] d IH]; cbn; [lia|].
  destruct (String.eqb k k'); cbn; lia.
Qed.

(** The log loop over named pods, run through a ready client: one read
    per pod, in order, and at most one entry per pod. *)
Lemma fetch_logs_run (w : World) (ns : string) (pods : list PodStatus) :
  Forall is_info pods ->
  forall (acc : list (string * string)) (st : State),
    k8s_initialized st = true ->
    exists logs,
      fetch_logs w pods ns acc st
      = (Ok logs, ready_after st (map (read_log ns) (pod_names pods)))
      /\ (List.length logs <= List.length acc + List.length pods)%nat.
Proof.
  induction 1 as [|p pods Hp _ IH]; intros acc st Hi.
  - exists acc. split; [|lia]. cbn. unfold ret, ready_after.
    rewrite app_nil_r. destruct st; cbn in *. now subst.
  - destruct p as [msg|name ph rs rd]; [destruct Hp|].
    cbn [fetch_logs pod_name_of].
    rewrite bind_unfold. cbn [ret]. rewrite bind_unfold.
    rewrite get_pod_logs_run, (client_ready_initialized w st Hi).
    rewrite bind_unfold. cbn [ret].
    match goal with
    | |- context [dict_set name ?text acc] =>
        destruct (IH (dict_set name text acc)
                    (ready_after st [ReadPodLog name ns 50]) eq_refl)
          as (logs & -> & Hlen);
        pose proof (dict_set_length name text acc)
    end.
    exists logs. split.
    + now rewrite ready_after_after.
    + cbn [List.length]. lia.
Qed.

Lemma chat_json_run_ok (w : World) (req : request) (st st1 : State) (v : json) :
  k8s_initialized st = true ->
  chat_json w req st = (Ok v, st1) ->
  st1 = ready_after st [ChatCompletion req].
Proof.
  intros Hi H. pose proof (chat_json_ok _ _ _ _ _ H) as [Hflag Htrace].
  destruct st as [i h], st1 as [i1 h1]. unfold ready_after. cbn in *.
  now subst.
Qed.

(** A completed [analyze], call by call. *)
Lemma analyze_completed (w : World) (d sev ns : string) (st st' : State)
    (r : IncidentResult) :
  analyze w d sev ns st = (Ok r, st') ->
  exists items logs,
    let ps := map summarize items in
    let unhealthy := filter is_unhealthy ps in
    let proposals :=
      if String.eqb sev "high" then safe_actions_of (analysis r) else [] in
    client_ready w st = true
    /\ list_namespaced_pod w (trace st) ns = Some items
    /\ (List.length logs <= 3)%nat
    /\ total_pods r = List.length items
    /\ unhealthy_pods r = List.length unhealthy
    /\ auto_executed r = flat_map (recorded unhealthy) proposals
    /\ issued st st'
       = ([ListPods ns]
          ++ map (read_log ns) (pod_names (firstn 3 unhealthy))
          ++ [ChatCompletion (IncidentRequest d sev ps unhealthy logs)]
          ++ flat_map (deletions unhealthy ns) proposals)%list.
Proof.
  intros H. unfold analyze in H.
  apply bind_ok_inv in H. destruct H as (ps & st1 & H1 & H).
  apply bind_ok_inv in H. destruct H as (logs & st2 & H2 & H).
  apply bind_ok_inv in H. destruct H as (v & st3 & H3 & H).
  apply bind_ok_inv in H. destruct H as (ex & st4 & H4 & H).
  inversion H; subst r st4; clear H.
  cbn [analysis total_pods unhealthy_pods auto_executed].
  rewrite get_pod_status_run in H1.
  destruct (client_ready w st) eqn:Hready.
  2:{ inversion H1; subst. discriminate H2. }
  destruct (list_namespaced_pod w (trace st) ns) as [items|] eqn:Hlist;
    [|discriminate H1].
  inversion H1; subst ps st1; clear H1.
  exists items, logs. cbn zeta.
  pose proof (summaries_are_info items) as Hps.
  pose proof (filter_info is_unhealthy _ Hps) as Hun.
  destruct (fetch_logs_run w ns _ (firstn_info 3 _ Hun) []
              (ready_after st [ListPods ns]) eq_refl) as (logs' & Hrun & Hlen).
  rewrite Hrun in H2. inversion H2; subst logs' st2; clear H2.
  rewrite ready_after_after in H3.
  apply chat_json_run_ok in H3; [|reflexivity]. subst st3.
  rewrite ready_after_after in H4.
  apply auto_remediate_ok in H4; [|exact Hun|reflexivity].
  cbn zeta in H4. destruct H4 as [Hex T4].
  repeat split; try reflexivity; try assumption.
  - cbn [List.length] in Hlen. rewrite length_firstn in Hlen. lia.
  - now rewrite length_map.
  - apply issued_app. rewrite T4. cbn [trace ready_after].
    now rewrite <- !app_assoc.
Qed.

(** X3: without a usable Kubernetes client [analyze] raises
    [KeyError('name')]: the placeholder entry counts as an unhealthy pod
    and has no name.  Nothing is called, not even the reasoning engine. *)
Theorem analyze_unreachable_cluster (w : World) (d sev ns : string) (st : State)
    (Hdown : client_ready w st = false) :
  analyze w d sev ns st = (Raise (KeyError "name"), st).
Proof.
  unfold analyze. rewrite bind_unfold, get_pod_status_run, Hdown.
  reflexivity.
Qed.

Lemma analyze_unreachable_cluster_witness :
  analyze unreachable_world "api down" "high" "prod" Sample.fresh
  = (Raise (KeyError "name"), Sample.fresh).
Proof.
  apply (analyze_unreachable_cluster unreachable_world). reflexivity.
Defined.



Lemma filter_map_comm {A B : Type} (f : B -> bool) (g : A -> B) (l : list A) :
  filter f (map g l) = map g (filter (fun x => f (g x)) l).
Proof.
  induction l as [|x l IH]; [reflexivity|].
  cbn. destruct (f (g x)); cbn; now rewrite IH.
Qed.

(** X5: the counts of [cluster_context] in a completed analysis:
    [total_pods] is the number of pods the API listed, [unhealthy] the
    number of those with a container that is not ready or with more than
    three restarts in total; a pod that reports no container status is
    counted as healthy. *)
Theorem cluster_context_counts (w : World) (d sev ns : string) (st st' : State)
    (r : IncidentResult)
    (Hrun : analyze w d sev ns st = (Ok r, st')) :
  exists items,
    list_namespaced_pod w (trace st) ns = Some items
    /\ total_pods r = List.length items
    /\ unhealthy_pods r = List.length (filter reported_unhealthy items)
    /\ (unhealthy_pods r <= total_pods r)%nat
    /\ (forall pod, In pod items -> container_statuses pod = [] ->
        ~ In pod (filter reported_unhealthy items)).
Proof.
  destruct (analyze_completed _ _ _ _ _ _ _ Hrun)
    as (items & logs & _ & Hlist & _ & Htot & Hun & _).
  cbn zeta in *. exists items.
  assert (unhealthy_pods r = List.length (filter reported_unhealthy items)) as E.
  { rewrite Hun, filter_map_comm, length_map. reflexivity. }
  repeat split; auto.
  - rewrite E, Htot. apply filter_length_le.
  - intros pod _ Hcs Hin. apply filter_In in Hin. destruct Hin as [_ Hin].
    unfold reported_unhealthy in Hin. rewrite Hcs in Hin. discriminate Hin.
Qed.

(** A cluster with a healthy pod, a crashing pod and a pending pod that
    reports no container status. *)
Definition three_pods_world : World :=
  Sample.world
    [Sample.healthy_pod; Sample.crashing_pod;
     {| metadata_name := "job-x"; status_phase := "Pending";
        container_statuses := [] |}]
    "{}" (Sample.proposes []).

Lemma cluster_context_counts_witness :
  exists r st',
    analyze three_pods_world "api down" "low" "prod" Sample.fresh = (Ok r, st')
    /\ (total_pods r = 3%nat /\ unhealthy_pods r = 1%nat)
    /\ exists items,
         list_namespaced_pod three_pods_world (trace Sample.fresh) "prod"
         = Some items
         /\ total_pods r = List.length items
         /\ unhealthy_pods r = List.length (filter reported_unhealthy items)
         /\ (unhealthy_pods r <= total_pods r)%nat
         /\ (forall pod, In pod items -> container_statuses pod = [] ->
             ~ In pod (filter reported_unhealthy items)).
Proof.
  eexists. eexists.
  assert (forall P Q R : Prop, P -> Q -> (P -> R) -> P /\ Q /\ R) as both
    by tauto.
  apply both; [vm_compute; reflexivity | split; reflexivity |].
  intros Hrun.
  exact (cluster_context_counts _ _ _ _ _ _ _ Hrun).
Defined.

(* ------------------------------------------------------------------ *)
(** *** What a run may change, whatever its outcome *)

(** [guarded ok m]: every call a run of [m] issues satisfies [ok]. *)
Definition guarded {A : Type} (ok : event -> Prop) (m : M A) : Prop :=
  emits m (Forall ok).

Lemma guarded_bind {A B : Type} (ok : event -> Prop) (m : M A) (k : A -> M B) :
  guarded ok m -> (forall a, guarded ok (k a)) -> guarded ok (bind m k).
Proof.
  intros Hm Hk. eapply emits_bind; eauto.
  intros e1 e2 H1 H2. apply Forall_app. now split.
Qed.

Lemma guarded_silent {A : Type} (ok : event -> Prop) (m : M A) :
  emits m (fun evs => evs = []) -> guarded ok m.
Proof.
  intros H st. destruct (H st) as (evs & T & ->). exists []. now split.
Qed.

Lemma quiet_guarded {A : Type} (ok : event -> Prop) (m : M A) :
  quiet m -> (forall e, is_mutation e = false -> ok e) -> guarded ok m.
Proof.
  intros H Hok st. destruct (H st) as (evs & T & Q). exists evs.
  split; [exact T|]. apply Forall_forall. intros e He. apply Hok.
  destruct (is_mutation e) eqn:E; [|reflexivity].
  assert (In e (filter is_mutation evs)) as Hin by (apply filter_In; auto).
  rewrite Q in Hin. destruct Hin.
Qed.

Lemma restart_pod_guarded (w : World) (name ns : string) :
  guarded (fun e => e = DeletePod name ns) (_restart_pod w name ns).
Proof.
  intros st. rewrite restart_pod_run. destruct (client_ready w st); cbn [snd].
  - exists [DeletePod name ns]. split; [reflexivity|]. now constructor.
  - exists []. split; [now rewrite app_nil_r | constructor].
Qed.

Lemma guarded_weaken {A : Type} (ok ok' : event -> Prop) (m : M A) :
  guarded ok m -> (forall e, ok e -> ok' e) -> guarded ok' m.
Proof.
  intros H Hok st. destruct (H st) as (evs & T & Hall).
  exists evs. split; [exact T|]. eapply Forall_impl; eauto.
Qed.

Lemma bind_raise {A B : Type} (e : exn) (k : A -> M B) :
  bind (raise e) k = raise e.
Proof. reflexivity. Qed.

Lemma bind_ret {A B : Type} (a : A) (k : A -> M B) (st : State) :
  bind (ret a) k st = k a st.
Proof. reflexivity. Qed.

(** The only call of the remediation loop is the deletion of the first
    unhealthy pod. *)
Lemma remediation_loop_guarded (w : World) (unhealthy : list PodStatus)
    (ns : string) (actions : list json) (acc : list Executed) :
  guarded (fun e => exists name,
               first_name unhealthy = Some name /\ e = DeletePod name ns)
    (remediation_loop w actions unhealthy ns acc).
Proof.
  revert acc. induction actions as [|a actions IH]; intros acc;
    cbn [remediation_loop].
  - apply guarded_silent, emits_ret. reflexivity.
  - assert (guarded
              (fun e => exists name,
                   first_name unhealthy = Some name /\ e = DeletePod name ns)
              (if Json.eq_str a "scale_up_deployment"
               then remediation_loop w actions unhealthy ns
                      (acc ++ [{| action := "scale_up_deployment";
                                  outcome := skipped_marker |}])
               else remediation_loop w actions unhealthy ns acc)) as Helse
      by (destruct (Json.eq_str a "scale_up_deployment"); apply IH).
    destruct (Json.eq_str a "restart_pod"); [|exact Helse].
    destruct unhealthy as [|[msg|name ph rs rd] rest];
      cbn [andb hd pod_name_of]; [exact Helse | |].
    + rewrite bind_raise. apply guarded_silent, emits_raise. reflexivity.
    + intros st. rewrite bind_ret. revert st.
      apply guarded_bind; [|intros; apply IH].
      eapply guarded_weaken; [apply restart_pod_guarded|].
      intros e ->. now exists name.
Qed.

Lemma auto_remediate_guarded (w : World) (sev : string) (analysis : json)
    (unhealthy : list PodStatus) (ns : string) :
  guarded (fun e => sev = "high"
                    /\ exists name,
                         first_name unhealthy = Some name
                         /\ e = DeletePod name ns)
    (auto_remediate w sev analysis unhealthy ns).
Proof.
  unfold auto_remediate.
  destruct (String.eqb_spec sev "high") as [->|_];
    [|apply guarded_silent, emits_ret; reflexivity].
  apply guarded_bind; [apply guarded_silent, emits_lift; reflexivity|].
  intros v. destruct (Json.truthy v);
    [|apply guarded_silent, emits_ret; reflexivity].
  apply guarded_bind; [apply guarded_silent, emits_lift; reflexivity|].
  intros items. eapply guarded_weaken; [apply remediation_loop_guarded|].
  cbn beta. intros e H. now split.
Qed.

Lemma first_unhealthy_listed (items : list Pod) (name : string) :
  first_name (filter is_unhealthy (map summarize items)) = Some name ->
  exists pod,
    In pod items /\ reported_unhealthy pod = true /\ metadata_name pod = name.
Proof.
  induction items as [|pod items IH]; [discriminate|].
  cbn [map filter].
  destruct (is_unhealthy (summarize pod)) eqn:E.
  - cbn. intros H. inversion H. exists pod.
    split; [now left | split; [exact E | reflexivity]].
  - intros H. destruct (IH H) as (p & Hin & Hp). exists p.
    split; [now right | exact Hp].
Qed.

(** X6: whatever the outcome of [analyze], returned or raised, the only
    calls it issues that change the cluster are deletions, in the
    namespace of the request, of a pod that the API listed and that was
    reported unhealthy; they are issued under high severity only.  No
    deployment is ever scaled. *)
Theorem analyze_only_deletes_reported_pods (w : World) (d sev ns : string)
    (st : State) (e : event)
    (Hissued : In e (issued st (snd (analyze w d sev ns st))))
    (Hmutation : is_mutation e = true) :
  sev = "high"
  /\ exists items pod,
       list_namespaced_pod w (trace st) ns = Some items
       /\ In pod items
       /\ reported_unhealthy pod = true
       /\ e = DeletePod (metadata_name pod) ns.
Proof.
  revert Hissued. unfold analyze.
  rewrite bind_unfold, get_pod_status_run.
  destruct (client_ready w st).
  2:{ cbn. rewrite issued_refl. intros []. }
  destruct (list_namespaced_pod w (trace st) ns) as [items|].
  2:{ cbn [snd]. rewrite issued_ready_after.
      intros [<-|[]]. discriminate Hmutation. }
  set (unhealthy := filter is_unhealthy (map summarize items)).
  match goal with
  | |- In e (issued st (snd (?rest ?st1))) -> _ =>
      assert (guarded
                (fun e => is_mutation e = true ->
                          sev = "high"
                          /\ exists name,
                               first_name unhealthy = Some name
                               /\ e = DeletePod name ns) rest) as G
  end.
  { apply guarded_bind;
      [apply quiet_guarded; [apply fetch_logs_quiet | congruence]|].
    intros logs. apply guarded_bind;
      [apply quiet_guarded; [apply chat_json_quiet | congruence]|].
    intros v. apply guarded_bind.
    - eapply guarded_weaken; [apply auto_remediate_guarded|]. auto.
    - intros ex. apply guarded_silent, emits_ret. reflexivity. }
  destruct (G (ready_after st [ListPods ns])) as (evs & T & Hall).
  intros Hin.
  rewrite (issued_app st _ ([ListPods ns] ++ evs)) in Hin.
  2:{ rewrite T. cbn [trace ready_after]. now rewrite <- app_assoc. }
  destruct Hin as [<-|Hin]; [discriminate Hmutation|].
  rewrite Forall_forall in Hall.
  destruct (Hall e Hin Hmutation) as (Hsev & name & Hfirst & ->).
  split; [exact Hsev|].
  destruct (first_unhealthy_listed items name Hfirst) as (pod & Hp & Hun & <-).
  now exists items, pod.
Qed.

Lemma analyze_only_deletes_reported_pods_witness :
  "high" = "high"
  /\ exists items pod,
       list_namespaced_pod
         (Sample.world [Sample.healthy_pod; Sample.crashing_pod] "{}"
            (Sample.proposes ["restart_pod"]))
         (trace Sample.fresh) "prod" = Some items
       /\ In pod items
       /\ reported_unhealthy pod = true
       /\ DeletePod "api-7d9f" "prod" = DeletePod (metadata_name pod) "prod".
Proof.
  apply (analyze_only_deletes_reported_pods
           (Sample.world [Sample.healthy_pod; Sample.crashing_pod] "{}"
              (Sample.proposes ["restart_pod"]))
           "api down" "high" "prod" Sample.fresh
           (DeletePod "api-7d9f" "prod")).
  - vm_compute. tauto.
  - reflexivity.
Defined.



(** Below high severity a reply that is not an object is returned as it
    is; under high severity the same reply raises. *)
Example array_reply_by_severity :
  (exists st',
      analyze (Sample.world [Sample.crashing_pod] "[]" (JArr []))
        "api down" "medium" "prod" Sample.fresh
      = (Ok {| analysis := JArr []; total_pods := 1; unhealthy_pods := 1;
               auto_executed := [] |}, st'))
  /\ fst (analyze (Sample.world [Sample.crashing_pod] "[]" (JArr []))
            "api down" "high" "prod" Sample.fresh)
     = Raise AttributeError.
Proof. split; [eexists|]; vm_compute; reflexivity. Qed.

(* ================================================================== *)
(** ** Further properties: the infrastructure handler *)
(* ================================================================== *)

(** The artifact mentions a resource marker, whatever its case. *)
Definition mentions (marker tf : string) : bool :=
  PyStr.contains marker (PyStr.lower tf).

Definition price (present : bool) (dollars : Z) : Z :=
  if present then dollars else 0%Z.

Lemma contains_tail (c : ascii) (p t : string) :
  PyStr.contains (String c p) t = true -> PyStr.contains p t = true.
Proof.
  induction t as [|d t IH]; intros H.
  - discriminate H.
  - rewrite PyStrFacts.contains_cons in *.
    apply orb_true_iff in H. apply orb_true_iff. right.
    destruct H as [H|H]; [|now apply IH].
    cbn in H. destruct (ascii_dec c d); [|discriminate H].
    now apply PyStrFacts.prefix_contains.
Qed.

Lemma mentions_app (marker a s : string) :
  mentions marker a = true -> mentions marker (a ++ s) = true.
Proof.
  unfold mentions. rewrite PyStrFacts.lower_app.
  apply PyStrFacts.contains_app_l.
Qed.

Lemma estimate_cost_unfold (tf : string) :
  _estimate_cost tf
  = {| estimated_monthly_usd :=
         (price (mentions "instance" tf) 8
          + (price (mentions "eks_cluster" tf) 73
             + (price (mentions "rds_instance" tf) 13
                + (price (mentions "s3_bucket" tf) 2
                   + price (mentions "elasticache" tf) 25))))%Z;
       resources_detected :=
         filter (fun resource => mentions (drop_aws resource) tf)
           (map fst cost_map) |}.
Proof.
  unfold _estimate_cost, mentions, price.
  cbn -[PyStr.contains PyStr.lower Z.add].
  destruct (PyStr.contains "instance" (PyStr.lower tf)),
    (PyStr.contains "eks_cluster" (PyStr.lower tf)),
    (PyStr.contains "rds_instance" (PyStr.lower tf)),
    (PyStr.contains "s3_bucket" (PyStr.lower tf)),
    (PyStr.contains "elasticache" (PyStr.lower tf)); reflexivity.
Qed.

(** X8: the cost estimate charges one fixed price for each resource
    type whose marker occurs in the artifact (8 for an instance whatever
    its size, 73, 13, 2 and 25), so it lies between 0 and 121 and is 0
    exactly when no resource is detected. *)
Theorem estimate_cost_prices (tf : string) :
  let est := _estimate_cost tf in
  estimated_monthly_usd est
  = (price (mentions "instance" tf) 8
     + price (mentions "eks_cluster" tf) 73
     + price (mentions "rds_instance" tf) 13
     + price (mentions "s3_bucket" tf) 2
     + price (mentions "elasticache" tf) 25)%Z
  /\ (0 <= estimated_monthly_usd est <= 121)%Z
  /\ (estimated_monthly_usd est = 0%Z <-> resources_detected est = []).
Proof.
  cbn zeta. rewrite estimate_cost_unfold.
  cbn [estimated_monthly_usd resources_detected].
  unfold mentions, price.
  cbn -[PyStr.contains PyStr.lower Z.add].
  destruct (PyStr.contains "instance" (PyStr.lower tf)),
    (PyStr.contains "eks_cluster" (PyStr.lower tf)),
    (PyStr.contains "rds_instance" (PyStr.lower tf)),
    (PyStr.contains "s3_bucket" (PyStr.lower tf)),
    (PyStr.contains "elasticache" (PyStr.lower tf));
    cbn; repeat split; try lia; try discriminate; try reflexivity.
Qed.

(** X9: the marker of a database instance ends with the marker of a
    compute instance, so an artifact in which [aws_rds_instance] is
    detected is always charged for an [aws_instance] too: at least 21. *)
Theorem rds_instance_counts_as_instance (tf : string)
    (Hrds : In "aws_rds_instance" (resources_detected (_estimate_cost tf))) :
  In "aws_instance" (resources_detected (_estimate_cost tf))
  /\ (21 <= estimated_monthly_usd (_estimate_cost tf))%Z.
Proof.
  rewrite estimate_cost_unfold in *.
  cbn [estimated_monthly_usd resources_detected] in *.
  assert (mentions "rds_instance" tf = true) as Hr.
  { apply filter_In in Hrds. destruct Hrds as [_ H]. exact H. }
  assert (mentions "instance" tf = true) as Hi.
  { unfold mentions in *. now do 4 apply contains_tail in Hr. }
  split.
  - apply filter_In. split; [cbn; tauto | exact Hi].
  - rewrite Hr, Hi. unfold price.
    destruct (mentions "eks_cluster" tf), (mentions "s3_bucket" tf),
      (mentions "elasticache" tf); lia.
Qed.

Lemma rds_instance_counts_as_instance_witness :
  In "aws_instance"
    (resources_detected (_estimate_cost "resource aws_rds_instance db {}"))
  /\ (21 <= estimated_monthly_usd
              (_estimate_cost "resource aws_rds_instance db {}"))%Z.
Proof.
  apply (rds_instance_counts_as_instance "resource aws_rds_instance db {}").
  vm_compute. tauto.
Defined.

Lemma price_mono (b b' : bool) (p : Z) :
  (0 <= p)%Z -> (b = true -> b' = true) -> (price b p <= price b' p)%Z.
Proof.
  intros Hp H. destruct b; [rewrite (H eq_refl); lia|].
  unfold price. destruct b'; lia.
Qed.

(** X10: appending text to an artifact never lowers its estimate and
    never loses a detected resource. *)
Theorem estimate_cost_monotone (tf more : string) :
  (estimated_monthly_usd (_estimate_cost tf)
   <= estimated_monthly_usd (_estimate_cost (tf ++ more)))%Z
  /\ incl (resources_detected (_estimate_cost tf))
          (resources_detected (_estimate_cost (tf ++ more))).
Proof.
  rewrite !estimate_cost_unfold.
  cbn [estimated_monthly_usd resources_detected]. split.
  - pose proof (price_mono _ _ 8 ltac:(lia) (mentions_app "instance" tf more)).
    pose proof (price_mono _ _ 73 ltac:(lia) (mentions_app "eks_cluster" tf more)).
    pose proof (price_mono _ _ 13 ltac:(lia) (mentions_app "rds_instance" tf more)).
    pose proof (price_mono _ _ 2 ltac:(lia) (mentions_app "s3_bucket" tf more)).
    pose proof (price_mono _ _ 25 ltac:(lia) (mentions_app "elasticache" tf more)).
    lia.
  - intros x Hx. apply filter_In in Hx. destruct Hx as [Hin Hm].
    apply filter_In. split; [exact Hin | now apply mentions_app].
Qed.

(** X11: whatever the artifact and the environment, the violations name
    rules of the table, each at most once and in table order, with the
    description of the table and the severity [high]; there are at most
    four, and at most three in production. *)
Theorem violations_follow_the_table (tf env : string) :
  let vs := _validate_policies tf env in
  names vs = filter (fun name => PyStr.mem name (names vs)) (map fst POLICIES)
  /\ NoDup (names vs)
  /\ (List.length vs <= 4)%nat
  /\ (env = "production" -> (List.length vs <= 3)%nat)
  /\ (forall v, In v vs ->
        v_severity v = "high"
        /\ exists pol,
             Json.assoc (policy v) POLICIES = Some pol
             /\ v_description v = description pol).
Proof.
  cbn zeta. unfold _validate_policies, names.
  rewrite validate_policies_in_filter.
  split; [|split; [|split; [|split]]].
  - cbn [POLICIES filter].
    repeat match goal with
           | |- context [violated tf env ?np] => destruct (violated tf env np)
           end; reflexivity.
  - cbn [POLICIES filter].
    repeat match goal with
           | |- context [violated tf env ?np] => destruct (violated tf env np)
           end;
      cbn; repeat constructor; cbn; intuition discriminate.
  - rewrite length_map.
    etransitivity; [apply filter_length_le | cbn; lia].
  - intros ->. rewrite length_map. cbn [POLICIES filter].
    unfold violated at 3. cbn [fst String.eqb Ascii.eqb Bool.eqb andb negb].
    repeat match goal with
           | |- context [violated tf "production" ?np] =>
               destruct (violated tf "production" np)
           end; cbn; lia.
  - intros v Hv. apply in_map_iff in Hv. destruct Hv as (np & <- & Hnp).
    apply filter_In in Hnp. destruct Hnp as [Hin _].
    split; [reflexivity|].
    cbn [POLICIES In] in Hin.
    destruct Hin as [<-|[<-|[<-|[<-|[]]]]]; eexists; split; reflexivity.
Qed.

Lemma chat_json_run (w : World) (req : request) (st : State) :
  chat_json w req st
  = (match chat_completion w (trace st) req with
     | ChatRaises => Raise APIError
     | ChatContent None => Raise TypeError
     | ChatContent (Some text) =>
         match json_loads w text with
         | Some v => Ok v
         | None => Raise JSONDecodeError
         end
     end, after st [ChatCompletion req]).
Proof.
  unfold chat_json, bind, call, after. cbn.
  destruct (chat_completion w (trace st) req) as [|[text|]]; try reflexivity.
  destruct (json_loads w text); reflexivity.
Qed.

(** X12: when the reply of the reasoning engine is an object without a
    [terraform_code] key, [plan] checks the empty artifact: the result is
    not approved, its only violation is [enforce_tagging], nothing would
    be applied and the estimate is 0 with no resource detected. *)
Theorem plan_without_code (w : World) (req env : string) (dry : bool)
    (st : State) (text : string) (fields : list (string * json))
    (Hreply : chat_completion w (trace st) (PlanRequest env req)
              = ChatContent (Some text))
    (Hparse : json_loads w text = Some (JObj fields))
    (Hmissing : Json.assoc "terraform_code" fields = None) :
  exists r,
    plan w req env dry st
    = (Ok r, after st [ChatCompletion (PlanRequest env req)])
    /\ names (violations (policy_check r)) = ["enforce_tagging"]
    /\ approved (policy_check r) = false
    /\ would_apply r = false
    /\ cost_estimate r
       = {| estimated_monthly_usd := 0; resources_detected := [] |}.
Proof.
  unfold plan. rewrite bind_unfold, chat_json_run, Hreply, Hparse.
  rewrite bind_unfold. cbn [lift Json.get_default ret]. rewrite Hmissing.
  rewrite bind_unfold. cbn [as_str ret].
  eexists. split; [reflexivity|].
  cbn [policy_check violations approved would_apply cost_estimate].
  unfold _validate_policies. cbn [POLICIES validate_policies_in].
  destruct (String.eqb env "production"); repeat split; reflexivity.
Qed.

Lemma plan_without_code_witness :
  exists r,
    plan (Sample.world [] "{}" (JObj [("explanation", JStr "nothing to do")]))
      "nothing" "production" false Sample.fresh
    = (Ok r, after Sample.fresh
               [ChatCompletion (PlanRequest "production" "nothing")])
    /\ names (violations (policy_check r)) = ["enforce_tagging"]
    /\ approved (policy_check r) = false
    /\ would_apply r = false
    /\ cost_estimate r
       = {| estimated_monthly_usd := 0; resources_detected := [] |}.
Proof.
  apply (plan_without_code
           (Sample.world [] "{}" (JObj [("explanation", JStr "nothing to do")]))
           "nothing" "production" false Sample.fresh "{}"
           [("explanation", JStr "nothing to do")]); reflexivity.
Defined.

(** The reply that [plan] cannot use. *)
Definition plan_failure (w : World) (env req : string) (st : State)
  : option exn :=
  match chat_completion w (trace st) (PlanRequest env req) with
  | ChatRaises => Some APIError
  | ChatContent None => Some TypeError
  | ChatContent (Some text) =>
      match json_loads w text with
      | None => Some JSONDecodeError
      | Some (JObj fields) =>
          match Json.assoc "terraform_code" fields with
          | None | Some (JStr _) => None
          | Some _ => Some AttributeError
          end
      | Some _ => Some AttributeError
      end
  end.

(** X13: [plan] fails exactly on an unusable reply, with the matching
    exception: the call raised, the content is missing, it is not JSON,
    it is not an object, or its [terraform_code] is not a string.  In
    every case, success included, exactly one call has been issued: the
    failure is not retried and no policy is evaluated on a guess. *)
Theorem plan_failures (w : World) (req env : string) (dry : bool) (st : State) :
  snd (plan w req env dry st) = after st [ChatCompletion (PlanRequest env req)]
  /\ (forall e, fst (plan w req env dry st) = Raise e
               <-> plan_failure w env req st = Some e).
Proof.
  unfold plan, plan_failure. rewrite bind_unfold, chat_json_run.
  destruct (chat_completion w (trace st) (PlanRequest env req)) as [|[text|]];
    cbn [fst snd];
    try (split; [reflexivity | intros e; split; intros H; inversion H; reflexivity]).
  destruct (json_loads w text) as [v|];
    try (split; [reflexivity | intros e; split; intros H; inversion H; reflexivity]).
  rewrite bind_unfold.
  destruct v; cbn [lift Json.get_default ret raise];
    try (split; [reflexivity | intros e; split; intros H; inversion H; reflexivity]).
  rewrite bind_unfold.
  destruct (Json.assoc "terraform_code" fields) as [c|]; [destruct c|];
    cbn [as_str ret raise fst snd];
    split; try reflexivity; intros e; split; intros H; inversion H; reflexivity.
Qed.



(** Through [route] an approved plan still would not be applied. *)
Example route_infrastructure_example :
  match fst (route
               (Sample.world [] "infrastructure"
                  (JObj [("terraform_code", JStr "resource aws_instance web { tags = {} }")]))
               "a small web server" Sample.fresh) with
  | Ok (RInfrastructure r) =>
      approved (policy_check r) = true /\ would_apply r = false
  | _ => False
  end.
Proof. vm_compute. split; reflexivity. Qed.

(* ================================================================== *)
(** ** Further properties: the pipeline handler *)
(* ================================================================== *)

(** The suggestion made for the workflow as a whole. *)
Definition already_parallel (independent : list string) : Suggestion :=
  {| s_type := "parallelization"; s_job := "workflow"; impact := "high";
     s_description := AlreadyParallel independent |}.

Definition per_job (total_jobs : Z) (jobs : list (string * Job))
  : list Suggestion :=
  flat_map (fun nj => job_suggestions total_jobs (fst nj) (snd nj)) jobs.

Lemma per_job_scope (total : Z) (jobs : list (string * Job)) :
  filter is_workflow_scope (per_job total jobs) = [].
Proof.
  unfold per_job. induction jobs as [|[n j] jobs IH]; [reflexivity|].
  cbn [flat_map fst snd]. now rewrite filter_app, job_suggestions_scope, IH.
Qed.

Lemma job_suggestions_length (total : Z) (name : string) (job : Job) :
  (List.length (job_suggestions total name job) <= 3)%nat.
Proof.
  unfold job_suggestions.
  destruct (negb (has_cache job)),
    ((steps job >? 8)%Z && negb (has_matrix job)),
    (negb (has_artifacts job) && (total >? 1)%Z); cbn; lia.
Qed.

Lemma detect_quick_wins_unfold (total : Z) (jobs : list (string * Job))
    (triggers : list string) :
  _detect_quick_wins (Workflow total jobs triggers)
  = (per_job total jobs
     ++ (if (2 <=? List.length (independent_jobs jobs))%nat
         then [already_parallel (independent_jobs jobs)] else []))%list.
Proof. reflexivity. Qed.

(** X15: the quick wins are the per-job suggestions in job order,
    followed by at most one suggestion for the whole workflow, which is
    there exactly when at least two jobs have no (or empty) [needs] and
    then lists those jobs; there are never more than three suggestions
    per job plus one. *)
Theorem quick_wins_shape (total : Z) (jobs : list (string * Job))
    (triggers : list string) :
  let wins := _detect_quick_wins (Workflow total jobs triggers) in
  let independent := independent_jobs jobs in
  wins = (per_job total jobs
          ++ (if (2 <=? List.length independent)%nat
              then [already_parallel independent] else []))%list
  /\ filter is_workflow_scope wins
     = (if (2 <=? List.length independent)%nat
        then [already_parallel independent] else [])
  /\ (List.length wins <= 3 * List.length jobs + 1)%nat.
Proof.
  cbn zeta. rewrite detect_quick_wins_unfold.
  split; [reflexivity|]. split.
  - rewrite filter_app, per_job_scope.
    destruct (2 <=? List.length (independent_jobs jobs))%nat; reflexivity.
  - rewrite length_app.
    assert (List.length (per_job total jobs) <= 3 * List.length jobs)%nat.
    { unfold per_job. induction jobs as [|[n j] jobs IH]; [cbn; lia|].
      cbn [flat_map fst snd List.length]. rewrite length_app.
      pose proof (job_suggestions_length total n j). lia. }
    destruct (2 <=? List.length (independent_jobs jobs))%nat; cbn; lia.
Qed.

(** X16: every per-job suggestion is earned by a job of the workflow:
    it carries the name of a job that has no cache (caching), that has
    more than eight steps and no matrix (parallelization), or that shares
    no artifact in a workflow of several jobs (artifacts). *)
Theorem quick_wins_are_earned (total : Z) (jobs : list (string * Job))
    (triggers : list string) (s : Suggestion)
    (Hin : In s (_detect_quick_wins (Workflow total jobs triggers)))
    (Hjob : is_workflow_scope s = false) :
  exists job,
    In (s_job s, job) jobs
    /\ ((s_type s = "caching" /\ impact s = "high" /\ has_cache job = false)
        \/ (s_type s = "parallelization" /\ impact s = "medium"
            /\ (8 < steps job)%Z /\ has_matrix job = false)
        \/ (s_type s = "artifacts" /\ impact s = "low"
            /\ has_artifacts job = false /\ (1 < total)%Z)).
Proof.
  rewrite detect_quick_wins_unfold in Hin.
  apply in_app_or in Hin. destruct Hin as [Hin|Hin].
  2:{ destruct (2 <=? List.length (independent_jobs jobs))%nat;
        [|destruct Hin].
      destruct Hin as [<-|[]]. discriminate Hjob. }
  unfold per_job in Hin. apply in_flat_map in Hin.
  destruct Hin as ([n j] & Hnj & Hs). cbn [fst snd] in Hs.
  unfold job_suggestions in Hs.
  exists j.
  apply in_app_or in Hs. destruct Hs as [Hs|Hs].
  { destruct (has_cache j) eqn:E; cbn in Hs; [destruct Hs|].
    destruct Hs as [<-|[]]. cbn. split; [exact Hnj|]. left. auto. }
  apply in_app_or in Hs. destruct Hs as [Hs|Hs].
  { destruct (steps j >? 8)%Z eqn:E1; cbn in Hs; [|destruct Hs].
    destruct (has_matrix j) eqn:E2; cbn in Hs; [destruct Hs|].
    destruct Hs as [<-|[]]. cbn. split; [exact Hnj|]. right. left.
    repeat split; auto. lia. }
  destruct (has_artifacts j) eqn:E1; cbn in Hs; [destruct Hs|].
  destruct (total >? 1)%Z eqn:E2; cbn in Hs; [|destruct Hs].
  destruct Hs as [<-|[]]. cbn. split; [exact Hnj|]. right. right.
  repeat split; auto. lia.
Qed.

Lemma quick_wins_are_earned_witness :
  exists job,
    In ("deploy", job) [("build", Sample.job true 4); ("deploy", Sample.job true 12)]
    /\ (("parallelization" = "caching" /\ "medium" = "high"
         /\ has_cache job = false)
        \/ ("parallelization" = "parallelization" /\ "medium" = "medium"
            /\ (8 < steps job)%Z /\ has_matrix job = false)
        \/ ("parallelization" = "artifacts" /\ "medium" = "low"
            /\ has_artifacts job = false /\ (1 < 2)%Z)).
Proof.
  apply (quick_wins_are_earned 2
           [("build", Sample.job true 4); ("deploy", Sample.job true 12)]
           ["push"]
           {| s_type := "parallelization"; s_job := "deploy";
              impact := "medium"; s_description := ManySteps "deploy" 12 |}).
  - vm_compute. tauto.
  - reflexivity.
Defined.

(** X17: a completed [optimize] has parsed the workflow, derived the
    quick wins from that parse and asked the reasoning engine exactly
    once; the opportunity count is the number of quick wins plus the
    size of [suggestions], which therefore is a list, a string or an
    object.  A workflow that parses to an error marker does not stop
    it: the engine is still asked, the quick wins are empty and the job
    count is 0. *)
Theorem optimize_completed (w : World) (repo content : string)
    (st st' : State) (r : PipelineResult)
    (Hrun : optimize w repo content st = (Ok r, st')) :
  parse_workflow w content = Ok (workflow_analysis r)
  /\ quick_wins r = _detect_quick_wins (workflow_analysis r)
  /\ (exists n,
        Json.len (ai_suggestions r) = Ok n
        /\ optimization_opportunities r = (List.length (quick_wins r) + n)%nat)
  /\ issued st st' = [ChatCompletion (OptimizeRequest repo content)]
  /\ (forall e, workflow_analysis r = WorkflowError e ->
        quick_wins r = [] /\ summary_total_jobs r = 0%Z).
Proof.
  unfold optimize in Hrun.
  apply bind_ok_inv in Hrun. destruct Hrun as (a & st1 & Hparse & H).
  apply lift_ok_inv in Hparse. destruct Hparse as [Hparse ->].
  apply bind_ok_inv in H. destruct H as (v & st2 & Hchat & H).
  apply bind_ok_inv in H. destruct H as (sg & st3 & Hget & H).
  apply lift_ok_inv in Hget. destruct Hget as [_ ->].
  apply bind_ok_inv in H. destruct H as (n & st4 & Hlen & H).
  apply lift_ok_inv in Hlen. destruct Hlen as [Hlen ->].
  inversion H; subst r st'; clear H. cbn.
  repeat split; auto.
  - now exists n.
  - apply issued_app. now apply chat_json_ok in Hchat.
  - subst a. reflexivity.
  - subst a. reflexivity.
Qed.

Lemma optimize_completed_witness :
  exists r st',
    optimize
      (Sample.world [] "{}" (JObj [("suggestions", JArr [JStr "pin actions"])]))
      "acme/web" "jobs: [" Sample.fresh = (Ok r, st')
    /\ (workflow_analysis r = WorkflowError "Not a valid workflow"
        /\ optimization_opportunities r = 1%nat)
    /\ (parse_workflow
          (Sample.world [] "{}" (JObj [("suggestions", JArr [JStr "pin actions"])]))
          "jobs: [" = Ok (workflow_analysis r)
        /\ quick_wins r = _detect_quick_wins (workflow_analysis r)
        /\ (exists n,
              Json.len (ai_suggestions r) = Ok n
              /\ optimization_opportunities r
                 = (List.length (quick_wins r) + n)%nat)
        /\ issued Sample.fresh st'
           = [ChatCompletion (OptimizeRequest "acme/web" "jobs: [")]
        /\ (forall e, workflow_analysis r = WorkflowError e ->
              quick_wins r = [] /\ summary_total_jobs r = 0%Z)).
Proof.
  eexists. eexists.
  assert (forall P Q R : Prop, P -> Q -> (P -> R) -> P /\ Q /\ R) as both
    by tauto.
  apply both; [vm_compute; reflexivity | split; reflexivity |].
  intros Hrun.
  exact (optimize_completed _ _ _ _ _ _ Hrun).
Defined.

(* ================================================================== *)
(** ** Further properties: classification *)
(* ================================================================== *)





















(* ================================================================== *)
(** ** main.py: the three POST endpoints *)
(* ================================================================== *)

Module Api.

(** The request models; a field that has a default may be left out. *)
Record IncidentRequest : Type := {
  i_description : string;
  i_severity : option string;    (* default "medium" *)
  i_namespace : option string    (* default "default" *)
}.

Record InfraRequest : Type := {
  f_request : string;
  f_environment : option string; (* default "staging" *)
  f_dry_run : option bool        (* default True *)
}.

Record PipelineRequest : Type := {
  p_repo : option string;        (* default "" *)
  p_workflow_content : string
}.

Definition field {A : Type} (given : option A) (default : A) : A :=
  match given with
  | Some v => v
  | None => default
  end.

(** [REQUEST_COUNT], a counter for each pair of labels
    [(endpoint, status)]. *)
Definition Metrics : Type := string -> string -> nat.

(** [REQUEST_COUNT.labels(endpoint=..., status=...).inc()] *)
Definition inc (endpoint status : string) (m : Metrics) : Metrics :=
  fun e s =>
    if String.eqb e endpoint && String.eqb s status
    then S (m e s) else m e s.

(** What an endpoint answers: the [AgentResponse] (its status is always
    [completed]) or the [HTTPException] it raises, whose detail is the
    text of the exception caught. *)
Inductive Response (A : Type) : Type :=
| AgentResponse (agent : string) (result : A)
| HTTPException (status_code : Z) (detail : exn).
Arguments AgentResponse {A} agent result.
Arguments HTTPException {A} status_code detail.

(** The body shared by the three endpoints: call the orchestrator, count
    the outcome, answer or raise.  The latency histogram is left out. *)
Definition serve {A : Type} (endpoint agent : string) (handler : M A)
    (st : State) (m : Metrics) : Response A * State * Metrics :=
  match handler st with
  | (Ok r, st') => (AgentResponse agent r, st', inc endpoint "success" m)
  | (Raise e, st') => (HTTPException 500 e, st', inc endpoint "error" m)
  end.

(** [POST /api/v1/incidents] *)
Definition handle_incident (w : World) (req : IncidentRequest)
  : State -> Metrics -> Response IncidentResult * State * Metrics :=
  serve "incidents" "incident"
    (handle_incident w (i_description req)
       (field (i_severity req) "medium")
       (field (i_namespace req) "default")).

(** [POST /api/v1/infrastructure] *)
Definition provision_infrastructure (w : World) (req : InfraRequest)
  : State -> Metrics -> Response InfraResult * State * Metrics :=
  serve "infrastructure" "infrastructure"
    (handle_infrastructure w (f_request req)
       (field (f_environment req) "staging")
       (field (f_dry_run req) true)).

(** [POST /api/v1/pipelines/optimize] *)
Definition optimize_pipeline (w : World) (req : PipelineRequest)
  : State -> Metrics -> Response PipelineResult * State * Metrics :=
  serve "pipelines" "pipeline"
    (handle_pipeline w (field (p_repo req) "") (p_workflow_content req)).


Definition zero : Metrics := fun _ _ => 0%nat.

End Api.


(** X20: the defaults of the request models are the safe ones.  An
    incident request that leaves [severity] out changes nothing in the
    cluster, whether it is answered or fails, and an answer has an empty
    [auto_executed]; an infrastructure request that leaves [dry_run] out
    is answered with [dry_run] true and [would_apply] false. *)
Theorem omitted_fields_are_safe (w : World) (st : State) (m : Api.Metrics)
    (description : string) (namespace : option string)
    (request : string) (environment : option string) :
  (let '(resp, st', _) :=
     Api.handle_incident w
       {| Api.i_description := description; Api.i_severity := None;
          Api.i_namespace := namespace |} st m in
   filter is_mutation (issued st st') = []
   /\ match resp with
      | Api.AgentResponse _ r => auto_executed r = []
      | Api.HTTPException _ _ => True
      end)
  /\ (let '(resp, _, _) :=
        Api.provision_infrastructure w
          {| Api.f_request := request; Api.f_environment := environment;
             Api.f_dry_run := None |} st m in
      match resp with
      | Api.AgentResponse _ r => dry_run r = true /\ would_apply r = false
      | Api.HTTPException _ _ => True
      end).
Proof.
  split.
  - unfold Api.handle_incident, Api.serve, handle_incident.
    cbn [Api.i_description Api.i_severity Api.i_namespace Api.field].
    set (ns := Api.field namespace "default").
    destruct (analyze_quiet_unless_high w description "medium" ns
                ltac:(discriminate) st) as (evs & T & Q).
    destruct (analyze w description "medium" ns st) as [[r|e] st'] eqn:H;
      cbn [snd] in T; cbv beta iota zeta;
      rewrite (issued_app _ _ _ T); split; auto.
    destruct (analyze_ok _ _ _ _ _ _ _ H) as (ps & _ & _ & _ & Hex & _).
    exact Hex.
  - unfold Api.provision_infrastructure, Api.serve, handle_infrastructure.
    cbn [Api.f_request Api.f_environment Api.f_dry_run Api.field].
    set (env := Api.field environment "staging").
    destruct (plan w request env true st) as [[r|e] st'] eqn:H;
      cbv beta iota zeta; [|exact I].
    destruct (plan_ok _ _ _ _ _ _ _ H) as (tf & _ & _ & Hw & Hd & _).
    rewrite Hw, Hd, andb_false_r. now split.
Qed.

(** An incident request without [severity] for which the reasoning
    engine proposes a restart, and one that names [high]. *)
Example post_incident_default_and_high :
  let w := Sample.world [Sample.crashing_pod] "{}" (Sample.proposes ["restart_pod"]) in
  (let '(resp, st', m') :=
     Api.handle_incident w
       {| Api.i_description := "api down"; Api.i_severity := None;
          Api.i_namespace := None |} Sample.fresh Api.zero in
   filter is_mutation (trace st') = []
   /\ m' "incidents" "success" = 1%nat)
  /\ (let '(resp, st', m') :=
        Api.handle_incident w
          {| Api.i_description := "api down"; Api.i_severity := Some "high";
             Api.i_namespace := None |} Sample.fresh Api.zero in
      filter is_mutation (trace st') = [DeletePod "api-7d9f" "default"]
      /\ m' "incidents" "success" = 1%nat /\ m' "incidents" "error" = 0%nat).
Proof. vm_compute. repeat split. Qed.
